(** * xhttp: the request pipeline of the HTTP client facade

    A shallow embedding of [src/http/constant.go], [src/http/option.go] and
    [src/http/http.go].

    - The Configuration Record ([parameter]) is the single heap cell that an
      [entity] points to; every facade method takes the cell's content and
      returns the content it leaves behind (explicit state passing).
    - Go maps are [option (gmap string V)]: [None] is the nil map. Ranging
      over a nil map does nothing, writing to it panics.
    - Closures stored in [beforeRequest] are defunctionalised ([hook]).
    - Everything the package calls but does not define (encoding/json,
      net/url, the net/http transport, util/transform.Strval) is a field of
      the class [Platform]; the statements hold for every platform. *)

From stdpp Require Import base option list gmap strings sorting pretty.
From Stdlib Require Import ZArith String Ascii OrdersEx.

Local Open Scope Z_scope.

(** ** Go preliminaries *)

(** [[]byte] and [string] are both byte sequences. *)
Abbreviation bytes := string (only parsing).

(** Go map with string keys; [None] is the nil map. *)
Abbreviation gomap V := (option (gmap string V)) (only parsing).

(** The entries a [range] loop visits: none for a nil map. *)
Definition entries {V} (m : gomap V) : gmap string V :=
  match m with
  | Some g => g
  | None => ∅
  end.

(** Errors. [errorString] is [fmt.Errorf] without [%w] (or a foreign error),
    [wrapError] is [fmt.Errorf] with [%w]. The [msg] of a [wrapError] keeps
    the constant head of the format string; the operands printed with [%v]
    and [%s] are not rendered. *)
Inductive error :=
| errorString (msg : string)
| wrapError (msg : string) (err : error).

Definition Unwrap (e : error) : option error :=
  match e with
  | errorString _ => None
  | wrapError _ inner => Some inner
  end.

Fixpoint Error (e : error) : string :=
  match e with
  | errorString msg => msg
  | wrapError msg inner => msg +:+ Error inner
  end.

(** Calls that may panic (assignment to an entry of a nil map). *)
Inductive run (A : Type) :=
| Done (a : A)
| Panic.
Arguments Done {A} a.
Arguments Panic {A}.

#[global] Instance run_ret : MRet run := λ A a, Done a.
#[global] Instance run_bind : MBind run := λ A B f x,
  match x with
  | Done a => f a
  | Panic => Panic
  end.

(** [interface{}] values stored in parameter maps and behind result
    pointers. [anyOther] stands for every dynamic value this development
    never looks into (structs, slices, maps, channels, ...). *)
Inductive any :=
| anyNil
| anyBool (b : bool)
| anyInt (n : Z)
| anyString (s : string)
| anyOther (tag : positive).

(** ** constant.go *)

Abbreviation Method := string (only parsing).

(** [time.Duration] is an int64 count of nanoseconds. *)
Definition wrap64 (z : Z) : Z := (z + 2 ^ 63) `mod` 2 ^ 64 - 2 ^ 63.
Definition time_Second : Z := 1000000000.

Definition DefaultTimeOut : Z := wrap64 (3 * time_Second).
Definition MethodPost : Method := "POST".
Definition MethodGet : Method := "GET".
Definition MethodPut : Method := "PUT".
Definition MethodDelete : Method := "DELETE".

(** ** option.go *)

(** [*tls.Config]: only the field the package itself sets is kept. *)
Record tls_Config := { InsecureSkipVerify : bool }.

(** An [ILogger] value and the address of a caller-owned
    [nethttp.Response] are represented by identifiers. *)
Abbreviation ILogger := positive (only parsing).
Abbreviation loc := positive (only parsing).

(** The closures the package stores in [beforeRequest]. [GetHook url] is the
    function literal of [Get] with its captured [url]; likewise for the
    others ([Post], [Put] capture [param] for an error text only).
    [UserHook] is a function passed to [WithBeforeRequest] by other code of
    the package; its body is looked up in the environment [userHook]. *)
Inductive hook :=
| GetHook (url : string)
| PostHook
| PutHook
| DeleteHook (url : string)
| UserHook (id : nat).

(** The body is an [io.Reader]; the package only ever installs
    [bytes.NewBuffer data], represented by [data]. How much of the buffer
    the transport has consumed afterwards is not tracked. *)
Record parameter := {
  url : string;
  method : Method;
  timeout : Z;
  header : gomap string;
  param : gomap any;
  beforeRequest : list hook;
  body : option bytes;
  tLSClientConfig : option tls_Config;
  log : option ILogger;
  deleteUriFlag : bool;
  response : option loc
}.

Definition set_url v (r : parameter) : parameter :=
  {| url := v; method := method r; timeout := timeout r; header := header r;
     param := param r; beforeRequest := beforeRequest r; body := body r;
     tLSClientConfig := tLSClientConfig r; log := log r;
     deleteUriFlag := deleteUriFlag r; response := response r |}.
Definition set_method v (r : parameter) : parameter :=
  {| url := url r; method := v; timeout := timeout r; header := header r;
     param := param r; beforeRequest := beforeRequest r; body := body r;
     tLSClientConfig := tLSClientConfig r; log := log r;
     deleteUriFlag := deleteUriFlag r; response := response r |}.
Definition set_timeout v (r : parameter) : parameter :=
  {| url := url r; method := method r; timeout := v; header := header r;
     param := param r; beforeRequest := beforeRequest r; body := body r;
     tLSClientConfig := tLSClientConfig r; log := log r;
     deleteUriFlag := deleteUriFlag r; response := response r |}.
Definition set_header v (r : parameter) : parameter :=
  {| url := url r; method := method r; timeout := timeout r; header := v;
     param := param r; beforeRequest := beforeRequest r; body := body r;
     tLSClientConfig := tLSClientConfig r; log := log r;
     deleteUriFlag := deleteUriFlag r; response := response r |}.
Definition set_param v (r : parameter) : parameter :=
  {| url := url r; method := method r; timeout := timeout r; header := header r;
     param := v; beforeRequest := beforeRequest r; body := body r;
     tLSClientConfig := tLSClientConfig r; log := log r;
     deleteUriFlag := deleteUriFlag r; response := response r |}.
Definition set_beforeRequest v (r : parameter) : parameter :=
  {| url := url r; method := method r; timeout := timeout r; header := header r;
     param := param r; beforeRequest := v; body := body r;
     tLSClientConfig := tLSClientConfig r; log := log r;
     deleteUriFlag := deleteUriFlag r; response := response r |}.
Definition set_tLSClientConfig v (r : parameter) : parameter :=
  {| url := url r; method := method r; timeout := timeout r; header := header r;
     param := param r; beforeRequest := beforeRequest r; body := body r;
     tLSClientConfig := v; log := log r;
     deleteUriFlag := deleteUriFlag r; response := response r |}.
Definition set_log v (r : parameter) : parameter :=
  {| url := url r; method := method r; timeout := timeout r; header := header r;
     param := param r; beforeRequest := beforeRequest r; body := body r;
     tLSClientConfig := tLSClientConfig r; log := v;
     deleteUriFlag := deleteUriFlag r; response := response r |}.
Definition set_deleteUriFlag v (r : parameter) : parameter :=
  {| url := url r; method := method r; timeout := timeout r; header := header r;
     param := param r; beforeRequest := beforeRequest r; body := body r;
     tLSClientConfig := tLSClientConfig r; log := log r;
     deleteUriFlag := v; response := response r |}.
Definition set_response v (r : parameter) : parameter :=
  {| url := url r; method := method r; timeout := timeout r; header := header r;
     param := param r; beforeRequest := beforeRequest r; body := body r;
     tLSClientConfig := tLSClientConfig r; log := log r;
     deleteUriFlag := deleteUriFlag r; response := v |}.

(** [func (p *parameter) SetBody(body io.Reader)] *)
Definition SetBody v (r : parameter) : parameter :=
  {| url := url r; method := method r; timeout := timeout r; header := header r;
     param := param r; beforeRequest := beforeRequest r; body := v;
     tLSClientConfig := tLSClientConfig r; log := log r;
     deleteUriFlag := deleteUriFlag r; response := response r |}.

(** [for key, val := range src { dst[key] = val }]. The loop body runs once
    per entry of [src] (in an unspecified order); the first write to a nil
    [dst] panics. *)
Definition range_assign {V} (src : gomap V) (dst : gomap V) : run (gomap V) :=
  map_fold (λ key val acc,
              d ← acc ;
              match d with
              | Some g => Done (Some (<[key := val]> g))
              | None => Panic
              end)
           (Done dst) (entries src).

(** [Option] is an interface with the unexported method [apply]; its only
    implementation is [optionFunc], and the only functions of that type are
    the ones the [With...] constructors return. *)
Inductive Option :=
| WithUrl (url : string)
| WithMethod (method : Method)
| WithTimeout (timeout : Z)
| WithParam (params : gomap any)
| WithHeader (headers : gomap string)
| WithBeforeRequest (preDeal : hook)
| WithTLSClientConfig (tLSClientConfig : option tls_Config)
| WithResponse (response : option loc)
| WithLogger (log : option ILogger)
| WithDeleteURIFlag (flag : bool).

Definition apply (o : Option) (r : parameter) : run parameter :=
  match o with
  | WithUrl url => Done (set_url url r)
  | WithMethod method => Done (set_method method r)
  | WithTimeout timeout => Done (set_timeout (wrap64 (timeout * time_Second)) r)
  | WithParam params =>
      m ← range_assign params (param r) ; Done (set_param m r)
  | WithHeader headers =>
      m ← range_assign headers (header r) ; Done (set_header m r)
  | WithBeforeRequest preDeal =>
      Done (set_beforeRequest (beforeRequest r ++ [preDeal]) r)
  | WithTLSClientConfig tLSClientConfig =>
      Done (set_tLSClientConfig tLSClientConfig r)
  | WithResponse response => Done (set_response response r)
  | WithLogger log => Done (set_log log r)
  | WithDeleteURIFlag flag => Done (set_deleteUriFlag flag r)
  end.

(** ** http.go *)

(** [New]: the record an [entity] is created with. *)
Definition New : parameter :=
  {| url := "";
     method := MethodGet;
     timeout := DefaultTimeOut;
     header := Some (<["Connection" := "close"]>
                       (<["Content-Type" := "application/json"]> ∅));
     param := Some ∅;
     beforeRequest := [];
     body := None;
     tLSClientConfig := Some {| InsecureSkipVerify := false |};
     log := None;
     deleteUriFlag := true;
     response := None |}.

(** [func (r *entity) withOpt(opts ...Option) error]; it never returns an
    error, so only the record is returned. *)
Fixpoint withOpt (opts : list Option) (r : parameter) : run parameter :=
  match opts with
  | [] => Done r
  | o :: opts' => r' ← apply o r ; withOpt opts' r'
  end.

(** *** net/http data *)

(** A response body stream: the bytes still unread, the error a read ends
    with (if any) and the error [Close] returns (if any). *)
Record ReadCloser := {
  rc_data : bytes;
  rc_readErr : option error;
  rc_closeErr : option error
}.

(** [ioutil.ReadAll]: everything unread, the read error, the stream left. *)
Definition ReadAll (b : ReadCloser) : bytes * option error * ReadCloser :=
  (rc_data b, rc_readErr b,
   {| rc_data := ""; rc_readErr := rc_readErr b; rc_closeErr := rc_closeErr b |}).

(** [ioutil.NopCloser (bytes.NewBuffer data)] *)
Definition NopCloser (data : bytes) : ReadCloser :=
  {| rc_data := data; rc_readErr := None; rc_closeErr := None |}.

Record Request := {
  req_ctx : positive;
  req_Method : Method;
  req_URL : string;
  req_Body : option bytes;
  req_Header : gmap string (list string)
}.

Record Response := {
  resp_StatusCode : Z;
  resp_Header : gmap string (list string);
  resp_Body : ReadCloser
}.

Definition set_resp_Body (b : ReadCloser) (resp : Response) : Response :=
  {| resp_StatusCode := resp_StatusCode resp;
     resp_Header := resp_Header resp;
     resp_Body := b |}.

Record Client := {
  Transport_TLSClientConfig : option tls_Config;
  Timeout : Z
}.

(** *** net/url data *)

Record URL := {
  Scheme : string;
  Host : string;
  Path : string;
  ForceQuery : bool;
  RawQuery : string;
  Fragment : string
}.

Definition set_RawQuery (q : string) (u : URL) : URL :=
  {| Scheme := Scheme u; Host := Host u; Path := Path u;
     ForceQuery := ForceQuery u; RawQuery := q; Fragment := Fragment u |}.

(** *** reflect data and the result target *)

Inductive Kind :=
| reflect_Bool
| reflect_Int
| reflect_String
| reflect_Struct
| reflect_Map
| reflect_Slice
| reflect_Interface
| reflect_Ptr.

#[global] Instance Kind_eq_dec : EqDecision Kind.
Proof. solve_decision. Defined.

(** The [result interface{}] argument, as the caller sees it.
    - [Nil]: the nil interface ([result == nil]);
    - [NonPointer v]: a dynamic value whose kind is not [reflect.Ptr];
    - [NilPointer]: a typed nil pointer ([Elem] is the zero [Value], of kind
      [Invalid]);
    - [PointerTo k settable v]: a pointer to a variable of kind [k] that
      holds [v]; [settable] is what [CanSet] answers for [Elem] (for a
      [Value] reached as [reflect.ValueOf(ptr).Elem()] the reflect package
      always answers [true]). *)
Inductive target :=
| Nil
| NonPointer (v : any)
| NilPointer
| PointerTo (k : Kind) (settable : bool) (v : any).

(** *** what a call can observe and change outside the record *)

Inductive logarg :=
| LogStr (s : string)
| LogHeader (h : gomap string).

(** [sent]: the requests handed to [client.Do], oldest first.
    [printed]: the lines handed to loggers.
    [heap]: the caller-owned [nethttp.Response] values reached through the
    record's [response] pointer. *)
Record world := {
  sent : list Request;
  printed : list (ILogger * list logarg);
  heap : gmap loc Response
}.

Definition Println (l : option ILogger) (args : list logarg) (w : world) : world :=
  match l with
  | Some lg => {| sent := sent w; printed := printed w ++ [(lg, args)]; heap := heap w |}
  | None => w
  end.

Definition Do_record (req : Request) (w : world) : world :=
  {| sent := sent w ++ [req]; printed := printed w; heap := heap w |}.

Definition store (l : loc) (resp : Response) (w : world) : world :=
  {| sent := sent w; printed := printed w; heap := <[l := resp]> (heap w) |}.

(** What a facade call leaves behind: the record, the world, the result
    target and the returned error; or a panic. *)
Inductive outcome :=
| Panicked
| Returned (r : parameter) (w : world) (res : target) (err : option error).

(** ** Collaborators

    The functions the package calls but does not define. [Strval] is
    [util/transform.Strval] (not among the sources at hand); the others
    belong to the Go standard library. [http_NewRequest_check] is the
    validation [http.NewRequestWithContext] performs on the method and the
    URL; [client_Do] is the transport (the server's answer included);
    [userHook] gives the body of each [UserHook]. *)
Class Platform := {
  Strval : any → string;
  json_Marshal : gmap string any → error + bytes;
  json_Valid : bytes → bool;
  json_Unmarshal : bytes → Kind → any → any * option error;
  url_Parse : string → error + URL;
  URL_String : URL → string;
  url_QueryEscape : string → string;
  http_NewRequest_check : Method → string → option error;
  CanonicalMIMEHeaderKey : string → string;
  client_Do : Client → Request → error + Response;
  userHook : nat → parameter → parameter * option error
}.

(** *** net/url.Values *)

(** [func (v Values) Add(key, value string)] *)
Definition Values_Add (key value : string) (v : gmap string (list string))
  : gmap string (list string) :=
  <[key := default [] (v !! key) ++ [value]]> v.

(** One step of the inner loop of [Values.Encode]. *)
Definition Encode_pair `{Platform} (keyEscaped : string) (buf v : string) : string :=
  (if decide (String.length buf = 0%nat) then buf else buf +:+ "&")
    +:+ keyEscaped +:+ "=" +:+ url_QueryEscape v.

(** [func (v Values) Encode() string]: keys sorted, then the pairs written
    to a buffer, separated by ampersands. *)
Definition Values_Encode `{Platform} (v : gmap string (list string)) : string :=
  if decide (size v = 0%nat) then ""
  else
    let keys := merge_sort String.le ((map_to_list v).*1) in
    foldl (λ buf k,
             let vs := default [] (v !! k) in
             let keyEscaped := url_QueryEscape k in
             foldl (Encode_pair keyEscaped) buf vs)
          "" keys.

(** [http.Header.Set] *)
Definition Header_Set `{Platform} (key value : string) (h : gmap string (list string))
  : gmap string (list string) :=
  <[CanonicalMIMEHeaderKey key := [value]]> h.

(** [http.NewRequestWithContext] *)
Definition NewRequestWithContext `{Platform}
    (ctx : positive) (method url : string) (body : option bytes) : error + Request :=
  match http_NewRequest_check method url with
  | Some err => inl err
  | None => inr {| req_ctx := ctx; req_Method := method; req_URL := url;
                   req_Body := body; req_Header := ∅ |}
  end.

(** *** The pre-request hooks of the facade *)

(** The loop [for key, value := range r.param { params.Add(key,
    transform.Strval(value)) }] on [params := neturl.Values{}]. *)
Definition range_Add `{Platform} (p : gomap any) : gmap string (list string) :=
  map_fold (λ key value params, Values_Add key (Strval value) params) ∅ (entries p).

(** The function literal in [Get]; [url0] is the captured argument [url] of
    [Get]. *)
Definition Get_beforeRequest `{Platform} (url0 : string) (r : parameter) (w : world)
  : parameter * world * option error :=
  match url_Parse url0 with
  | inl err => (r, w, Some (wrapError "get json ma err" err))
  | inr netUrl =>
      let params := range_Add (param r) in
      let netUrl := set_RawQuery (Values_Encode params) netUrl in
      let r := set_url (URL_String netUrl) r in
      let w := Println (log r) [LogStr "Get url"; LogHeader (header r); LogStr (url r)] w in
      (r, w, None)
  end.

(** The function literals in [Post] and [Put]; they differ in the texts. *)
Definition Body_beforeRequest `{Platform} (errText logText : string)
    (r : parameter) (w : world) : parameter * world * option error :=
  match param r with
  | None => (r, w, None)
  | Some p =>
      match json_Marshal p with
      | inl err => (r, w, Some (wrapError errText err))
      | inr data =>
          let r := SetBody (Some data) r in
          let w := Println (log r)
                     [LogStr logText; LogHeader (header r); LogStr (url r); LogStr data] w in
          (r, w, None)
      end
  end.

Definition Post_beforeRequest `{Platform} := Body_beforeRequest "post json ma err" "Post url".
Definition Put_beforeRequest `{Platform} := Body_beforeRequest "put json ma err" "Put url".

(** The function literal in [Delete]; [url0] is the captured argument
    [url] of [Delete]. *)
Definition Delete_beforeRequest `{Platform} (url0 : string) (r : parameter) (w : world)
  : parameter * world * option error :=
  match param r with
  | None => (r, w, None)
  | Some p =>
      match json_Marshal p with
      | inl err => (r, w, Some (wrapError "post json ma err" err))
      | inr data =>
          let r := SetBody (Some data) r in
          let w := Println (log r)
                     [LogStr "Delete url"; LogHeader (header r); LogStr (url r); LogStr data] w in
          if deleteUriFlag r then
            match url_Parse url0 with
            | inl err => (r, w, Some (wrapError "get json ma err" err))
            | inr netUrl =>
                let params := range_Add (param r) in
                let netUrl := set_RawQuery (Values_Encode params) netUrl in
                let r := set_url (URL_String netUrl) r in
                let w := Println (log r) [LogStr "Delete url"; LogStr (url r)] w in
                (r, w, None)
            end
          else (r, w, None)
      end
  end.

(** Calling a stored closure. *)
Definition call_hook `{Platform} (h : hook) (r : parameter) (w : world)
  : parameter * world * option error :=
  match h with
  | GetHook url => Get_beforeRequest url r w
  | PostHook => Post_beforeRequest r w
  | PutHook => Put_beforeRequest r w
  | DeleteHook url => Delete_beforeRequest url r w
  | UserHook id => let '(r', err) := userHook id r in (r', w, err)
  end.

(** [for _, beforeRequest := range r.beforeRequest { if err =
    beforeRequest(r.parameter); nil != err { return ... } }]. The slice
    ranged over is the one read when the loop starts. *)
Fixpoint run_hooks `{Platform} (hs : list hook) (r : parameter) (w : world)
  : parameter * world * option error :=
  match hs with
  | [] => (r, w, None)
  | h :: hs' =>
      match call_hook h r w with
      | (r', w', Some err) => (r', w', Some err)
      | (r', w', None) => run_hooks hs' r' w'
      end
  end.

(** *** request *)

Definition set_req_Header (h : gmap string (list string)) (req : Request) : Request :=
  {| req_ctx := req_ctx req; req_Method := req_Method req; req_URL := req_URL req;
     req_Body := req_Body req; req_Header := h |}.

(** The deferred function of [request]: it runs on every return after a
    successful [client.Do] and may replace the error being returned. *)
Definition deferred_Close (resp : Response) (err : option error) : option error :=
  match rc_closeErr (resp_Body resp) with
  | Some closeErr =>
      let errStr := match err with
                    | Some e => "(" +:+ Error e +:+ ")"
                    | None => ""
                    end in
      Some (wrapError ("resp body close err, " +:+ errStr +:+ " ") closeErr)
  | None => err
  end.

(** The fall-back of [request] for a body that is not JSON (from
    [rv := reflect.ValueOf(result)] to the end). *)
Definition assign_string (bodyByte : bytes) (result : target) : target * option error :=
  match result with
  | Nil | NonPointer _ => (result, Some (errorString "result must be a pointer"))
  | NilPointer => (result, Some (errorString "result must be a string"))
  | PointerTo k settable v =>
      if decide (k ≠ reflect_String) then
        (result, Some (errorString "result must be a string"))
      else if negb settable then
        (result, Some (errorString "result can not set"))
      else (PointerTo k settable (anyString bodyByte), None)
  end.

(** [json.Unmarshal(bodyByte, &result)]: the decoder receives the address
    of the local variable [result]. When that variable holds a non-nil
    pointer the decoder writes to the variable pointed to; otherwise it
    stores the decoded value in the local variable itself, out of the
    caller's sight. *)
Definition Unmarshal_result `{Platform} (bodyByte : bytes) (result : target)
  : target * option error :=
  match result with
  | PointerTo k settable v =>
      let '(v', err) := json_Unmarshal bodyByte k v in (PointerTo k settable v', err)
  | _ => (result, (json_Unmarshal bodyByte reflect_Interface anyNil).2)
  end.

(** [request] from [var bodyByte []byte] to its last [return]: the part
    that runs between the [defer] statement and the deferred function. *)
Definition request_read `{Platform}
    (r : parameter) (result : target) (resp : Response) (w : world)
  : world * target * option error :=
  let captured :=
    match response r with
    | Some l =>
        let '(bodyByte, err, stream) := ReadAll (resp_Body resp) in
        match err with
        | Some e => inl (store l (set_resp_Body stream resp) w, e)
        | None =>
            inr (bodyByte, stream,
                 store l (set_resp_Body (NopCloser bodyByte) resp) w)
        end
    | None => inr ("", resp_Body resp, w)
    end in
  match captured with
  | inl (w, e) => (w, result, Some (wrapError "request read err" e))
  | inr (bodyByte, stream, w) =>
      match result with
      | Nil =>
          match rc_readErr stream with
          | Some e => (w, result, Some (wrapError "resp body clear err" e))
          | None => (w, result, None)
          end
      | _ =>
          let '(bodyByte, err) :=
            if decide (String.length bodyByte = 0%nat)
            then let '(b, e, _) := ReadAll stream in (b, e)
            else (bodyByte, None) in
          match err with
          | Some e => (w, result, Some (wrapError "request read err" e))
          | None =>
              if decide (String.length bodyByte = 0%nat) then (w, result, None)
              else if json_Valid bodyByte then
                match Unmarshal_result bodyByte result with
                | (result', Some e) =>
                    (w, result', Some (wrapError "request json un err" e))
                | (result', None) => (w, result', None)
                end
              else
                let '(result', err) := assign_string bodyByte result in
                (w, result', err)
          end
      end
  end.

(** [func (r *entity) request(ctx, url, result, opts...) (err error)];
    [r] is the content of [r.parameter] on entry. *)
Definition request `{Platform} (ctx : positive) (url0 : string) (result : target)
    (opts : list Option) (r : parameter) (w : world) : outcome :=
  match withOpt (WithUrl url0 :: opts) r with
  | Panic => Panicked
  | Done r =>
      match run_hooks (beforeRequest r) r w with
      | (r, w, Some err) =>
          Returned r w result (Some (wrapError "request callback err" err))
      | (r, w, None) =>
          match NewRequestWithContext ctx (method r) (url r) (body r) with
          | inl err =>
              Returned r w result
                (Some (wrapError "request NewRequestWithContext err" err))
          | inr req =>
              let req := set_req_Header
                           (map_fold Header_Set (req_Header req) (entries (header r)))
                           req in
              let client := {| Transport_TLSClientConfig := tLSClientConfig r;
                               Timeout := timeout r |} in
              let w := Do_record req w in
              match client_Do client req with
              | inl err => Returned r w result (Some (wrapError "request do err" err))
              | inr resp =>
                  let '(w, result, err) := request_read r result resp w in
                  Returned r w result (deferred_Close resp err)
              end
          end
      end
  end.

(** *** The facade *)

Definition Get `{Platform} (ctx : positive) (url0 : string) (result : target)
    (opts : list Option) : parameter → world → outcome :=
  request ctx url0 result
    (opts ++ [WithMethod MethodGet; WithBeforeRequest (GetHook url0)]).

Definition Post `{Platform} (ctx : positive) (url0 : string) (param : gomap any)
    (result : target) (opts : list Option) : parameter → world → outcome :=
  request ctx url0 result
    (opts ++ [WithMethod MethodPost; WithParam param; WithBeforeRequest PostHook]).

Definition Put `{Platform} (ctx : positive) (url0 : string) (param : gomap any)
    (result : target) (opts : list Option) : parameter → world → outcome :=
  request ctx url0 result
    (opts ++ [WithMethod MethodPut; WithParam param; WithBeforeRequest PutHook]).

Definition Delete `{Platform} (ctx : positive) (url0 : string) (param : gomap any)
    (result : target) (opts : list Option) : parameter → world → outcome :=
  request ctx url0 result
    (opts ++ [WithMethod MethodDelete; WithParam param;
              WithBeforeRequest (DeleteHook url0)]).

(** [var defaultHttp = New()]: the record behind the package-level [Get],
    [Post], [Put] and [Delete], which are the four methods above run on it. *)
Definition defaultHttp : parameter := New.

(** A facade call, and two calls in succession on the same [entity]. *)
Inductive call :=
| CallGet (ctx : positive) (url0 : string) (result : target) (opts : list Option)
| CallPost (ctx : positive) (url0 : string) (param : gomap any) (result : target)
    (opts : list Option)
| CallPut (ctx : positive) (url0 : string) (param : gomap any) (result : target)
    (opts : list Option)
| CallDelete (ctx : positive) (url0 : string) (param : gomap any) (result : target)
    (opts : list Option).

Definition invoke `{Platform} (c : call) : parameter → world → outcome :=
  match c with
  | CallGet ctx url0 result opts => Get ctx url0 result opts
  | CallPost ctx url0 param result opts => Post ctx url0 param result opts
  | CallPut ctx url0 param result opts => Put ctx url0 param result opts
  | CallDelete ctx url0 param result opts => Delete ctx url0 param result opts
  end.

(** The options a facade call hands to [withOpt]. *)
Definition call_opts (c : call) : list Option :=
  match c with
  | CallGet _ url0 _ opts =>
      WithUrl url0 :: opts ++ [WithMethod MethodGet; WithBeforeRequest (GetHook url0)]
  | CallPost _ url0 param _ opts =>
      WithUrl url0 :: opts ++ [WithMethod MethodPost; WithParam param;
                               WithBeforeRequest PostHook]
  | CallPut _ url0 param _ opts =>
      WithUrl url0 :: opts ++ [WithMethod MethodPut; WithParam param;
                               WithBeforeRequest PutHook]
  | CallDelete _ url0 param _ opts =>
      WithUrl url0 :: opts ++ [WithMethod MethodDelete; WithParam param;
                               WithBeforeRequest (DeleteHook url0)]
  end.

(** ** A small platform to run the pipeline on

    Simple stand-ins for the collaborators, used to evaluate the definitions
    above on concrete calls. The transport and the user hooks are left to
    each example. *)

Definition sample_Strval (v : any) : string :=
  match v with
  | anyNil => ""
  | anyBool b => if b then "true" else "false"
  | anyInt n => pretty n
  | anyString s => s
  | anyOther _ => ""
  end.

Definition hex_digit (n : N) : ascii :=
  default "0"%char (list_ascii_of_string "0123456789ABCDEF" !! N.to_nat n).

Definition unreserved (c : ascii) : bool :=
  let n := N_of_ascii c in
  ((48 <=? n) && (n <=? 57) || (65 <=? n) && (n <=? 90) || (97 <=? n) && (n <=? 122)
   || bool_decide (c ∈ list_ascii_of_string "-_.~"))%N.

(** Percent-encoding of a query component: unreserved bytes are kept, a
    space becomes a plus sign, every other byte becomes [%XX]. *)
Fixpoint sample_QueryEscape (s : string) : string :=
  match s with
  | EmptyString => EmptyString
  | String c s' =>
      if unreserved c then String c (sample_QueryEscape s')
      else if bool_decide (c = " "%char) then String "+" (sample_QueryEscape s')
      else
        let n := N_of_ascii c in
        String "%" (String (hex_digit (n / 16)) (String (hex_digit (n `mod` 16))
                                                       (sample_QueryEscape s')))
  end.

(** [split_at c s]: the text before the first [c], and the text after it
    when there is one. *)
Fixpoint split_at (c : ascii) (s : string) : string * option string :=
  match s with
  | EmptyString => (EmptyString, None)
  | String a s' =>
      if bool_decide (a = c) then (EmptyString, Some s')
      else let '(before, after) := split_at c s' in (String a before, after)
  end.

Definition control (c : ascii) : bool :=
  let n := N_of_ascii c in ((n <? 32) || (n =? 127))%N.

Definition sample_Parse (s : string) : error + URL :=
  if existsb control (list_ascii_of_string s) then
    inl (errorString "net/url: invalid control character in URL")
  else
    let '(s1, frag) := split_at "#" s in
    let '(path, query) := split_at "?" s1 in
    inr {| Scheme := ""; Host := ""; Path := path;
           ForceQuery := bool_decide (query = Some "");
           RawQuery := default "" query;
           Fragment := default "" frag |}.

Definition sample_URL_String (u : URL) : string :=
  Scheme u +:+ Host u +:+ Path u
    +:+ (if ForceQuery u || negb (bool_decide (RawQuery u = ""))
         then "?" +:+ RawQuery u else "")
    +:+ (if bool_decide (Fragment u = "") then "" else "#" +:+ Fragment u).

(** A text between double quotes. *)
Definition quoted (s : string) : string :=
  String "034"%char s +:+ String "034"%char EmptyString.

Definition sample_json_value (v : any) : error + string :=
  match v with
  | anyNil => inr "null"
  | anyBool b => inr (if b then "true" else "false")
  | anyInt n => inr (pretty n)
  | anyString s => inr (quoted s)
  | anyOther _ => inl (errorString "json: unsupported type")
  end.

Fixpoint sample_json_fields (l : list (string * any)) : error + string :=
  match l with
  | [] => inr ""
  | (k, v) :: l' =>
      match sample_json_value v, sample_json_fields l' with
      | inr sv, inr rest =>
          inr (quoted k +:+ ":" +:+ sv
                    +:+ (if bool_decide (l' = []) then "" else ",") +:+ rest)
      | inl e, _ => inl e
      | _, inl e => inl e
      end
  end.

Definition entry_le (a b : string * any) : Prop := String.le a.1 b.1.

#[global] Instance entry_le_dec : RelDecision entry_le.
Proof. intros a b. unfold entry_le. apply _. Defined.

#[global] Instance entry_le_trans : Transitive entry_le.
Proof. intros a b c. unfold entry_le. apply transitivity. Qed.

#[global] Instance entry_le_total : Total entry_le.
Proof. intros a b. unfold entry_le. apply total, _. Qed.

Definition sample_Marshal (m : gmap string any) : error + string :=
  match sample_json_fields (merge_sort entry_le (map_to_list m)) with
  | inr s => inr ("{" +:+ s +:+ "}")
  | inl e => inl e
  end.

Definition sample_Valid (s : string) : bool :=
  match s with
  | EmptyString => false
  | String c _ =>
      bool_decide (c ∈ "034"%char :: list_ascii_of_string "{[-0123456789")
      || bool_decide (s ∈ ["true"; "false"; "null"])
  end.

(** The decoded value is kept as the text it was decoded from. *)
Definition sample_Unmarshal (bodyByte : string) (k : Kind) (v : any)
  : any * option error :=
  (anyString bodyByte, None).

Definition sample_check (method url0 : string) : option error :=
  if existsb (λ c, bool_decide (c = " "%char)) (list_ascii_of_string method) then
    Some (errorString "net/http: invalid method")
  else match sample_Parse url0 with
       | inl e => Some e
       | inr _ => None
       end.

Definition sample_platform (Do : Client → Request → error + Response)
    (hooks : nat → parameter → parameter * option error) : Platform :=
  {| Strval := sample_Strval;
     json_Marshal := sample_Marshal;
     json_Valid := sample_Valid;
     json_Unmarshal := sample_Unmarshal;
     url_Parse := sample_Parse;
     URL_String := sample_URL_String;
     url_QueryEscape := sample_QueryEscape;
     http_NewRequest_check := sample_check;
     CanonicalMIMEHeaderKey := id;
     client_Do := Do;
     userHook := hooks |}.

(** A server that answers every request with status 200 and the given
    body; [closeErr] is what closing the body returns. *)
Definition serve (bodyByte : string) (closeErr : option error)
  : Client → Request → error + Response :=
  λ _ _, inr {| resp_StatusCode := 200; resp_Header := ∅;
                resp_Body := {| rc_data := bodyByte; rc_readErr := None;
                                rc_closeErr := closeErr |} |}.

Definition no_hooks : nat → parameter → parameter * option error :=
  λ _ r, (r, None).

(** User hooks that all fail. *)
Definition failing_hooks : nat → parameter → parameter * option error :=
  λ _ r, (r, Some (errorString "hook failed")).

Definition world0 : world := {| sent := []; printed := []; heap := ∅ |}.

(** The request built for a record that still has the headers of [New]. *)
Definition sample_Request (ctx : positive) (method url0 : string) (body : option bytes)
  : Request :=
  {| req_ctx := ctx; req_Method := method; req_URL := url0; req_Body := body;
     req_Header := <["Connection" := ["close"]]>
                     (<["Content-Type" := ["application/json"]]> ∅) |}.

(** The response [serve] answers with. *)
Definition served (bodyByte : string) (closeErr : option error) : Response :=
  {| resp_StatusCode := 200; resp_Header := ∅;
     resp_Body := {| rc_data := bodyByte; rc_readErr := None;
                     rc_closeErr := closeErr |} |}.

(** The JSON text of [{k: v}] for two strings, and of [{k: n}] for a number. *)
Definition json_kv (k v : string) : string :=
  "{" +:+ quoted k +:+ ":" +:+ quoted v +:+ "}".
Definition json_kn (k : string) (n : Z) : string :=
  "{" +:+ quoted k +:+ ":" +:+ pretty n +:+ "}".

(** What was sent last, and what a call left behind. *)
Definition last_sent (o : outcome) : option Request :=
  match o with
  | Returned _ w _ _ => last (sent w)
  | Panicked => None
  end.

Definition record_of (o : outcome) : option parameter :=
  match o with
  | Returned r _ _ _ => Some r
  | Panicked => None
  end.

Definition error_of (o : outcome) : option error :=
  match o with
  | Returned _ _ _ err => err
  | Panicked => None
  end.

Definition target_of (o : outcome) : option target :=
  match o with
  | Returned _ _ res _ => Some res
  | Panicked => None
  end.


(** ** Observations used in the statements *)

(** The hooks a list of options registers, in order. *)
Fixpoint hooks_of (opts : list Option) : list hook :=
  match opts with
  | [] => []
  | WithBeforeRequest h :: opts' => h :: hooks_of opts'
  | _ :: opts' => hooks_of opts'
  end.

(** The hooks whose body is one of the four function literals of the
    facade. *)
Definition builtin (h : hook) : Prop :=
  match h with
  | UserHook _ => False
  | _ => True
  end.

#[global] Instance builtin_dec h : Decision (builtin h).
Proof. destruct h; simpl; apply _. Defined.

(** The options that replace one field by their argument. *)
Definition scalar (o : Option) : Prop :=
  match o with
  | WithUrl _ | WithMethod _ | WithTimeout _ | WithTLSClientConfig _
  | WithResponse _ | WithLogger _ | WithDeleteURIFlag _ => True
  | WithParam _ | WithHeader _ | WithBeforeRequest _ => False
  end.

#[global] Instance scalar_dec o : Decision (scalar o).
Proof. destruct o; simpl; apply _. Defined.

Definition call_ctx (c : call) : positive :=
  match c with
  | CallGet ctx _ _ _ | CallPost ctx _ _ _ _ | CallPut ctx _ _ _ _
  | CallDelete ctx _ _ _ _ => ctx
  end.

Definition call_url (c : call) : string :=
  match c with
  | CallGet _ u _ _ | CallPost _ u _ _ _ | CallPut _ u _ _ _
  | CallDelete _ u _ _ _ => u
  end.

Definition call_result (c : call) : target :=
  match c with
  | CallGet _ _ res _ | CallPost _ _ _ res _ | CallPut _ _ _ res _
  | CallDelete _ _ _ res _ => res
  end.

(** The options the caller supplied. *)
Definition caller_opts (c : call) : list Option :=
  match c with
  | CallGet _ _ _ opts | CallPost _ _ _ _ opts | CallPut _ _ _ _ opts
  | CallDelete _ _ _ _ opts => opts
  end.

(** The method option the facade injects. *)
Definition call_method (c : call) : Method :=
  match c with
  | CallGet _ _ _ _ => MethodGet
  | CallPost _ _ _ _ _ => MethodPost
  | CallPut _ _ _ _ _ => MethodPut
  | CallDelete _ _ _ _ _ => MethodDelete
  end.

(** The hook the facade injects. *)
Definition call_beforeRequest (c : call) : hook :=
  match c with
  | CallGet _ url0 _ _ => GetHook url0
  | CallPost _ _ _ _ _ => PostHook
  | CallPut _ _ _ _ _ => PutHook
  | CallDelete _ url0 _ _ _ => DeleteHook url0
  end.

(** The parameter map the facade is called with (none for [Get]). *)
Definition call_param (c : call) : gomap any :=
  match c with
  | CallGet _ _ _ _ => None
  | CallPost _ _ param _ _ | CallPut _ _ param _ _ | CallDelete _ _ param _ _ => param
  end.

(** The options the facade appends to the caller's. *)
Definition facade_opts (c : call) : list Option :=
  match c with
  | CallGet _ url0 _ _ => [WithMethod MethodGet; WithBeforeRequest (GetHook url0)]
  | CallPost _ _ param _ _ =>
      [WithMethod MethodPost; WithParam param; WithBeforeRequest PostHook]
  | CallPut _ _ param _ _ =>
      [WithMethod MethodPut; WithParam param; WithBeforeRequest PutHook]
  | CallDelete _ url0 param _ _ =>
      [WithMethod MethodDelete; WithParam param; WithBeforeRequest (DeleteHook url0)]
  end.

(** The record once the facade's options are applied to [r0], the record
    after the url option and the caller's options, whose parameter map is
    [m0]. *)
Definition configured (c : call) (r0 : parameter) (m0 : gmap string any) : parameter :=
  set_beforeRequest (beforeRequest r0 ++ [call_beforeRequest c])
    (set_param (Some (entries (call_param c) ∪ m0))
       (set_method (call_method c) r0)).

(** The request a run of [request] hands to [client.Do], when it gets that
    far; [opts] is the list given to [withOpt] (the url option included). *)
Definition outbound `{Platform} (ctx : positive) (opts : list Option)
    (r : parameter) (w : world) : option Request :=
  match withOpt opts r with
  | Panic => None
  | Done r =>
      match run_hooks (beforeRequest r) r w with
      | (_, _, Some _) => None
      | (r, _, None) =>
          match NewRequestWithContext ctx (method r) (url r) (body r) with
          | inl _ => None
          | inr req =>
              Some (set_req_Header
                      (map_fold Header_Set (req_Header req) (entries (header r))) req)
          end
      end
  end.

(** The response a run of [request] receives, with the record and the world
    at that point. *)
Definition answer `{Platform} (ctx : positive) (opts : list Option)
    (r : parameter) (w : world) : option (parameter * world * Response) :=
  match withOpt opts r with
  | Panic => None
  | Done r =>
      match run_hooks (beforeRequest r) r w with
      | (_, _, Some _) => None
      | (r, w, None) =>
          match NewRequestWithContext ctx (method r) (url r) (body r) with
          | inl _ => None
          | inr req =>
              let req := set_req_Header
                           (map_fold Header_Set (req_Header req) (entries (header r)))
                           req in
              match client_Do {| Transport_TLSClientConfig := tLSClientConfig r;
                                 Timeout := timeout r |} req with
              | inl _ => None
              | inr resp => Some (r, Do_record req w, resp)
              end
          end
      end
  end.

(** Two facade calls in succession on one [entity]: the second call works
    on the cell [r.parameter] as the first call left it. *)
Definition successive `{Platform} (c1 c2 : call) (r : parameter) (w : world) : outcome :=
  match invoke c1 r w with
  | Returned r' w' _ _ => invoke c2 r' w'
  | Panicked => Panicked
  end.




(** Both maps of the record are allocated (not nil). *)
Definition allocated (r : parameter) : Prop :=
  is_Some (param r) ∧ is_Some (header r).

(** [r'] differs from [r] in [url] and [body] at most. *)
Definition same_config (r r' : parameter) : Prop :=
  method r' = method r ∧ timeout r' = timeout r ∧ header r' = header r
  ∧ param r' = param r ∧ beforeRequest r' = beforeRequest r
  ∧ tLSClientConfig r' = tLSClientConfig r ∧ log r' = log r
  ∧ deleteUriFlag r' = deleteUriFlag r ∧ response r' = response r.

(** Two options that write the same scalar field of the record. *)
Definition same_field (o1 o2 : Option) : Prop :=
  match o1, o2 with
  | WithUrl _, WithUrl _ | WithMethod _, WithMethod _
  | WithTimeout _, WithTimeout _
  | WithTLSClientConfig _, WithTLSClientConfig _
  | WithResponse _, WithResponse _ | WithLogger _, WithLogger _
  | WithDeleteURIFlag _, WithDeleteURIFlag _ => True
  | _, _ => False
  end.

#[global] Instance same_field_dec o1 o2 : Decision (same_field o1 o2).
Proof. destruct o1, o2; simpl; apply _. Defined.

(** The url a list of options leaves in a record whose url was [u]. *)
Fixpoint url_after (opts : list Option) (u : string) : string :=
  match opts with
  | [] => u
  | WithUrl u' :: opts' => url_after opts' u'
  | _ :: opts' => url_after opts' u
  end.

(** The calls whose hook builds a JSON body, and those among them whose
    hook never touches the url. *)
Definition builds_body (c : call) : Prop :=
  match c with
  | CallGet _ _ _ _ => False
  | _ => True
  end.




(** A transport that always fails. *)
Definition refuse (e : error) : Client → Request → error + Response :=
  λ _ _, inl e.

(** A server whose body cannot be read to the end. *)
Definition serve_broken (bodyByte : string) (readErr : error)
  : Client → Request → error + Response :=
  λ _ _, inr {| resp_StatusCode := 200; resp_Header := ∅;
                resp_Body := {| rc_data := bodyByte; rc_readErr := Some readErr;
                                rc_closeErr := None |} |}.

(** A url with a control character in it. *)
Definition bad_url : string := String "127"%char "http://x".

(** * Properties *)

Example Get_scenario :
  let o := @Get (sample_platform (serve ("{" +:+ quoted "k" +:+ ":" +:+ quoted "v" +:+ "}") None)
                      no_hooks) 1 "http://x/a"
             (PointerTo reflect_Map true anyNil)
             [WithParam (Some {[ "q" := anyString "1" ]})] New world0 in
  (req_URL <$> last_sent o, req_Method <$> last_sent o, error_of o)
  = (Some "http://x/a?q=1", Some "GET", None).
Proof. vm_compute. reflexivity. Qed.

(** ** The merge loop *)

Lemma range_assign_Some {V} (src : gomap V) (g : gmap string V) :
  range_assign src (Some g) = Done (Some (entries src ∪ g)).
Proof.
  unfold range_assign. generalize (entries src). intros m0.
  refine (map_fold_weak_ind (λ acc m, acc = Done (Some (m ∪ g))) _ _ _ _ m0).
  - by rewrite (left_id_L ∅ (∪)).
  - intros key val m acc _ ->. simpl. by rewrite insert_union_l.
Qed.

Lemma range_assign_None {V} (src : gomap V) :
  range_assign src None =
    if decide (entries src = ∅) then Done None else Panic.
Proof.
  unfold range_assign. generalize (entries src). intros m0.
  refine (map_fold_weak_ind
            (λ acc m, acc = if decide (m = ∅) then Done None else Panic) _ _ _ _ m0).
  - by rewrite decide_True.
  - intros key val m acc _ ->.
    rewrite (decide_False (P := <[key:=val]> m = ∅)) by apply insert_non_empty.
    by case_decide.
Qed.

Lemma withOpt_app (a b : list Option) (r : parameter) :
  withOpt (a ++ b) r = r' ← withOpt a r; withOpt b r'.
Proof.
  revert r. induction a as [|o a IH]; intros r; simpl; [done|].
  destruct (apply o r) as [r'|]; simpl; [apply IH | done].
Qed.

(** What [withOpt] does to the hook chain: it only appends. *)
Lemma withOpt_beforeRequest (opts : list Option) (r r' : parameter) :
  withOpt opts r = Done r' →
  beforeRequest r' = beforeRequest r ++ hooks_of opts.
Proof.
  revert r. induction opts as [|o opts IH]; intros r; simpl.
  - intros [= <-]. by rewrite (right_id_L [] (++)).
  - destruct (apply o r) as [r1|] eqn:Ho; simpl; [|done].
    intros Hr'. apply IH in Hr'. rewrite Hr'.
    destruct o; simpl in Ho; try (injection Ho as <-; done).
    + destruct (range_assign params (param r)); simplify_eq/=; done.
    + destruct (range_assign headers (header r)); simplify_eq/=; done.
    + injection Ho as <-. simpl. by rewrite <-(assoc_L (++)).
Qed.

(** A record with both maps allocated never makes an option panic, and
    stays such a record. *)
Lemma apply_allocated (o : Option) (r : parameter) :
  allocated r → ∃ r', apply o r = Done r' ∧ allocated r'.
Proof.
  intros [[p Hp] [h Hh]].
  destruct o; simpl; try (eexists; split; [done|]; split; simpl; eauto; fail).
  - rewrite Hp, range_assign_Some. simpl. eexists; split; [done|].
    split; simpl; eauto.
  - rewrite Hh, range_assign_Some. simpl. eexists; split; [done|].
    split; simpl; eauto.
Qed.

Lemma withOpt_allocated (opts : list Option) (r : parameter) :
  allocated r → ∃ r', withOpt opts r = Done r' ∧ allocated r'.
Proof.
  revert r. induction opts as [|o opts IH]; intros r Hr; simpl; [eauto|].
  destruct (apply_allocated o r Hr) as (r1 & -> & Hr1). simpl. by apply IH.
Qed.


(** ** Options: idempotence and accumulation *)

Lemma merge_twice {V} (A B : gomap V) (m : gomap V) :
  entries A ##ₘ entries B →
  (m' ← range_assign A m; range_assign B m')
  = range_assign (Some (entries A ∪ entries B)) m.
Proof.
  intros Hdisj. destruct m as [g|].
  - rewrite !range_assign_Some. simpl. rewrite range_assign_Some. simpl.
    do 2 f_equal. rewrite (assoc_L (∪)). f_equal. by apply map_union_comm.
  - rewrite !range_assign_None. simpl.
    destruct (decide (entries A = ∅)) as [HA|HA]; simpl.
    + rewrite range_assign_None, HA, (left_id_L ∅ (∪)). done.
    + rewrite decide_False; [done|].
      intros Hu. apply map_positive_l in Hu. done.
Qed.

(** C7. Applying a scalar-valued option (url, method, timeout, TLS config,
    response slot, logger, delete-uri flag) twice with the same value gives
    the same record as applying it once. Applying two parameter merges (two
    header merges) with disjoint maps gives the same record as one merge
    with the union of the two maps; from an empty map that is the record
    whose map is the union. *)
Theorem C7_options_idempotent_and_merges_accumulate
    (o : Option) (A B : gomap any) (Ah Bh : gomap string) (r : parameter) :
  scalar o →
  entries A ##ₘ entries B →
  entries Ah ##ₘ entries Bh →
  (r' ← apply o r; apply o r') = apply o r
  ∧ (r' ← apply (WithParam A) r; apply (WithParam B) r')
    = apply (WithParam (Some (entries A ∪ entries B))) r
  ∧ (param r = Some ∅ →
     (r' ← apply (WithParam A) r; apply (WithParam B) r')
     = Done (set_param (Some (entries A ∪ entries B)) r))
  ∧ (r' ← apply (WithHeader Ah) r; apply (WithHeader Bh) r')
    = apply (WithHeader (Some (entries Ah ∪ entries Bh))) r
  ∧ (header r = Some ∅ →
     (r' ← apply (WithHeader Ah) r; apply (WithHeader Bh) r')
     = Done (set_header (Some (entries Ah ∪ entries Bh)) r)).
Proof.
  intros Ho HAB HABh. split; [|split; [|split; [|split]]].
  - destruct o; simpl in Ho; try done; reflexivity.
  - simpl. rewrite <-(merge_twice A B) by done.
    destruct (range_assign A (param r)) as [m1|]; simpl; [|done].
    destruct (range_assign B m1); simpl; done.
  - intros Hp. simpl. rewrite Hp, range_assign_Some. simpl.
    rewrite range_assign_Some. simpl. unfold set_param; simpl. do 3 f_equal.
    rewrite !(right_id_L ∅ (∪)). by apply map_union_comm.
  - simpl. rewrite <-(merge_twice Ah Bh) by done.
    destruct (range_assign Ah (header r)) as [m1|]; simpl; [|done].
    destruct (range_assign Bh m1); simpl; done.
  - intros Hp. simpl. rewrite Hp, range_assign_Some. simpl.
    rewrite range_assign_Some. simpl. unfold set_header; simpl. do 3 f_equal.
    rewrite !(right_id_L ∅ (∪)). by apply map_union_comm.
Qed.

(** ** The hook chain *)

Section hooks.
Context `{Platform}.

Lemma same_config_refl r : same_config r r.
Proof. by repeat split. Qed.

Lemma same_config_trans r1 r2 r3 :
  same_config r1 r2 → same_config r2 r3 → same_config r1 r3.
Proof. unfold same_config. intros ? ?. destruct_and!. repeat split; congruence. Qed.

Lemma Println_sent l args w :
  sent (Println l args w) = sent w ∧ heap (Println l args w) = heap w.
Proof. by destruct l. Qed.

(** No hook reaches the transport or the captured responses. *)
Lemma call_hook_world h r w r' w' e :
  call_hook h r w = (r', w', e) → sent w' = sent w ∧ heap w' = heap w.
Proof.
  destruct h; simpl;
    unfold Get_beforeRequest, Post_beforeRequest, Put_beforeRequest,
      Body_beforeRequest, Delete_beforeRequest;
    repeat (case_match; simplify_eq/=); intros; simplify_eq;
    rewrite ?(proj1 (Println_sent _ _ _)), ?(proj2 (Println_sent _ _ _));
    rewrite ?(proj1 (Println_sent _ _ _)), ?(proj2 (Println_sent _ _ _)); done.
Qed.

(** The facade's own hooks write [url] and [body] only. *)
Lemma call_hook_builtin h r w r' w' e :
  builtin h → call_hook h r w = (r', w', e) → same_config r r'.
Proof.
  destruct h; simpl; try done; intros _;
    unfold Get_beforeRequest, Post_beforeRequest, Put_beforeRequest,
      Body_beforeRequest, Delete_beforeRequest;
    repeat (case_match; simplify_eq/=); intros; simplify_eq;
    by repeat split.
Qed.

Lemma run_hooks_world hs r w r' w' e :
  run_hooks hs r w = (r', w', e) → sent w' = sent w ∧ heap w' = heap w.
Proof.
  revert r w. induction hs as [|h hs IH]; intros r w; simpl.
  - by intros [= <- <- <-].
  - destruct (call_hook h r w) as [[r1 w1] [e1|]] eqn:Hh.
    + intros [= <- <- <-]. by eapply call_hook_world.
    + intros Hrun. apply IH in Hrun. apply call_hook_world in Hh.
      destruct Hrun, Hh. split; congruence.
Qed.

Lemma run_hooks_builtin hs r w r' w' e :
  Forall builtin hs → run_hooks hs r w = (r', w', e) → same_config r r'.
Proof.
  intros Hb. revert r w. induction Hb as [|h hs Hh _ IH]; intros r w; simpl.
  - intros [= <- <- <-]. apply same_config_refl.
  - destruct (call_hook h r w) as [[r1 w1] [e1|]] eqn:Hcall.
    + intros [= <- <- <-]. by eapply call_hook_builtin.
    + intros Hrun. eapply same_config_trans; [by eapply call_hook_builtin|eauto].
Qed.

Lemma run_hooks_app a b r w :
  run_hooks (a ++ b) r w =
    match run_hooks a r w with
    | (r', w', Some e) => (r', w', Some e)
    | (r', w', None) => run_hooks b r' w'
    end.
Proof.
  revert r w. induction a as [|h a IH]; intros r w; simpl; [done|].
  destruct (call_hook h r w) as [[r1 w1] [e1|]]; [done|apply IH].
Qed.

(** A failing hook stops the chain: the hooks after it are not called. *)
Lemma run_hooks_stop hs1 h hs2 r w r2 w2 r3 w3 e :
  run_hooks hs1 r w = (r2, w2, None) →
  call_hook h r2 w2 = (r3, w3, Some e) →
  run_hooks (hs1 ++ h :: hs2) r w = (r3, w3, Some e).
Proof. intros H1 H2. rewrite run_hooks_app, H1. simpl. by rewrite H2. Qed.
End hooks.

(** ** The executor *)

Section executor.
Context `{Platform}.

Lemma request_read_sent r result resp w w' res err :
  request_read r result resp w = (w', res, err) → sent w' = sent w.
Proof.
  unfold request_read, ReadAll, assign_string.
  repeat (case_match; simplify_eq/=); intros; simplify_eq/=; done.
Qed.

(** [request] once the response is there: the read and decode part, then
    the deferred close. *)
Lemma request_answer ctx url0 result opts r w r2 w2 resp :
  answer ctx (WithUrl url0 :: opts) r w = Some (r2, w2, resp) →
  request ctx url0 result opts r w =
    let '(w3, res, err) := request_read r2 result resp w2 in
    Returned r2 w3 res (deferred_Close resp err).
Proof.
  unfold answer, request.
  destruct (withOpt (WithUrl url0 :: opts) r) as [r1|]; [|done].
  destruct (run_hooks (beforeRequest r1) r1 w) as [[r2' w2'] [e|]]; [done|].
  destruct (NewRequestWithContext ctx (method r2') (url r2') (body r2'))
    as [e|req]; [done|].
  simpl. destruct (client_Do _ _) as [e|resp']; [done|].
  by intros [= -> <- ->].
Qed.

(** A request that was built is the last one recorded as sent. *)
Lemma request_outbound ctx url0 result opts r w req :
  outbound ctx (WithUrl url0 :: opts) r w = Some req →
  ∃ r' w' res err,
    request ctx url0 result opts r w = Returned r' w' res err
    ∧ sent w' = sent w ++ [req].
Proof.
  unfold outbound, request.
  destruct (withOpt (WithUrl url0 :: opts) r) as [r1|]; [|done].
  destruct (run_hooks (beforeRequest r1) r1 w) as [[r2 w2] [e|]] eqn:Hrun;
    [done|].
  apply run_hooks_world in Hrun as [Hsent _].
  destruct (NewRequestWithContext ctx (method r2) (url r2) (body r2))
    as [e|req0]; [done|].
  intros [= <-]. simpl.
  destruct (client_Do _ _) as [e|resp].
  - do 4 eexists. split; [done|]. simpl. by rewrite Hsent.
  - destruct (request_read _ _ _ _) as [[w3 res] err] eqn:Hread.
    apply request_read_sent in Hread.
    do 4 eexists. split; [done|]. rewrite Hread. simpl. by rewrite Hsent.
Qed.

(** C8. When a pre-request hook returns an error, [request] returns at
    once: the record and the world are those the failing hook left (the
    hooks after it in the chain have not run), nothing was handed to the
    transport and no request was built, and the returned error wraps the
    hook's error. *)
Theorem C8_hook_error_aborts
    ctx url0 result opts r w r1 hs1 h hs2 r2 w2 r3 w3 e :
  withOpt (WithUrl url0 :: opts) r = Done r1 →
  beforeRequest r1 = hs1 ++ h :: hs2 →
  run_hooks hs1 r1 w = (r2, w2, None) →
  call_hook h r2 w2 = (r3, w3, Some e) →
  ∃ err,
    request ctx url0 result opts r w = Returned r3 w3 result (Some err)
    ∧ Unwrap err = Some e
    ∧ sent w3 = sent w
    ∧ outbound ctx (WithUrl url0 :: opts) r w = None.
Proof.
  intros Hopt Hchain Hpre Hfail.
  pose proof (run_hooks_stop hs1 h hs2 r1 w r2 w2 r3 w3 e Hpre Hfail) as Hrun.
  exists (wrapError "request callback err" e).
  unfold request, outbound. rewrite Hopt, Hchain, Hrun.
  split; [done|]. split; [done|]. split; [|done].
  apply run_hooks_world in Hrun. tauto.
Qed.

End executor.

Section decode.
Context `{Platform}.

End decode.

(** ** The query string *)




Section query.
Context `{Platform}.







End query.

(** ** The facade *)

Section facade.
Context `{Platform}.

Lemma call_opts_split c :
  call_opts c = WithUrl (call_url c) :: caller_opts c ++ facade_opts c.
Proof. by destruct c. Qed.

Lemma invoke_request c r w :
  invoke c r w =
    request (call_ctx c) (call_url c) (call_result c)
      (caller_opts c ++ facade_opts c) r w.
Proof. by destruct c. Qed.

Lemma withOpt_facade c r0 m0 :
  param r0 = Some m0 →
  withOpt (facade_opts c) r0 = Done (configured c r0 m0).
Proof.
  intros Hm0. unfold configured.
  destruct c; simpl; rewrite ?Hm0, ?range_assign_Some; simpl; try done.
  rewrite (left_id_L ∅ (∪)).
  destruct r0; simpl in *; subst; done.
Qed.

(** The order of application: the url option, the caller's options, the
    facade's options. *)
Lemma withOpt_call c r r0 m0 :
  withOpt (WithUrl (call_url c) :: caller_opts c) r = Done r0 →
  param r0 = Some m0 →
  withOpt (call_opts c) r = Done (configured c r0 m0).
Proof.
  intros H0 Hm0. rewrite call_opts_split.
  change (WithUrl (call_url c) :: caller_opts c ++ facade_opts c)
    with ((WithUrl (call_url c) :: caller_opts c) ++ facade_opts c).
  rewrite withOpt_app, H0. simpl. by apply withOpt_facade.
Qed.

Lemma builtin_call_beforeRequest c : builtin (call_beforeRequest c).
Proof. by destruct c. Qed.

(** Whatever happens after the options are applied, the record a call
    leaves is the one the hook chain left. *)
Lemma request_record ctx url0 result opts r w r1 rf wf e :
  withOpt (WithUrl url0 :: opts) r = Done r1 →
  run_hooks (beforeRequest r1) r1 w = (rf, wf, e) →
  ∃ w' res err, request ctx url0 result opts r w = Returned rf w' res err.
Proof.
  intros H1 Hrun. unfold request. rewrite H1, Hrun.
  destruct e as [e|]; [by do 3 eexists|].
  destruct (NewRequestWithContext _ _ _ _) as [e|req]; [by do 3 eexists|].
  simpl. destruct (client_Do _ _) as [e|resp]; [by do 3 eexists|].
  destruct (request_read _ _ _ _) as [[w3 res] err]. by do 3 eexists.
Qed.

(** A facade call that builds a request: the hooks registered before the
    facade's own all succeeded, the facade's hook ran last, and the
    request is built from the record it left. *)
Lemma outbound_call c r w r0 m0 req :
  withOpt (WithUrl (call_url c) :: caller_opts c) r = Done r0 →
  param r0 = Some m0 →
  Forall builtin (beforeRequest r0) →
  outbound (call_ctx c) (call_opts c) r w = Some req →
  ∃ rp wp rf wf,
    run_hooks (beforeRequest r0) (configured c r0 m0) w = (rp, wp, None)
    ∧ same_config (configured c r0 m0) rp
    ∧ call_hook (call_beforeRequest c) rp wp = (rf, wf, None)
    ∧ req_Method req = method rf
    ∧ req_URL req = url rf
    ∧ req_Body req = body rf.
Proof.
  intros H0 Hm0 Hb. unfold outbound.
  rewrite (withOpt_call c r r0 m0 H0 Hm0).
  change (beforeRequest (configured c r0 m0))
    with (beforeRequest r0 ++ [call_beforeRequest c]).
  rewrite run_hooks_app.
  destruct (run_hooks (beforeRequest r0) (configured c r0 m0) w)
    as [[rp wp] [e|]] eqn:Hpre; [done|].
  simpl run_hooks.
  destruct (call_hook (call_beforeRequest c) rp wp) as [[rf wf] [e|]] eqn:Hlast;
    [done|].
  unfold NewRequestWithContext.
  destruct (http_NewRequest_check (method rf) (url rf)); [done|].
  intros [= <-]. exists rp, wp, rf, wf. simpl.
  split; [done|]. split; [by eapply run_hooks_builtin|]. done.
Qed.
End facade.

Section facade_claims.
Context `{Platform}.

Lemma hooks_of_app a b : hooks_of (a ++ b) = hooks_of a ++ hooks_of b.
Proof.
  induction a as [|o a IH]; [done|]. destruct o; simpl; by rewrite ?IH.
Qed.

Lemma hooks_of_call c :
  hooks_of (call_opts c) = hooks_of (caller_opts c) ++ [call_beforeRequest c].
Proof.
  rewrite call_opts_split. simpl. rewrite hooks_of_app. by destruct c.
Qed.

(** C1, as the code has it. A facade call applies its options to the
    record the [entity] holds, and leaves that record behind for the next
    call on the same [entity]: after the call the record still holds the
    hooks the call registered (behind the ones it found), the method the
    facade set, the parameters merged in and the response slot; the
    options of the next call are applied to exactly this record, so that
    its hook chain starts with the hooks of the first call. *)
Theorem C1_calls_share_the_record c1 r w r0 m0 :
  withOpt (WithUrl (call_url c1) :: caller_opts c1) r = Done r0 →
  param r0 = Some m0 →
  Forall builtin (beforeRequest r0) →
  ∃ r' w' res err,
    invoke c1 r w = Returned r' w' res err
    ∧ beforeRequest r' = beforeRequest r ++ hooks_of (call_opts c1)
    ∧ method r' = call_method c1
    ∧ param r' = Some (entries (call_param c1) ∪ m0)
    ∧ response r' = response r0
    ∧ (∀ c2, successive c1 c2 r w = invoke c2 r' w')
    ∧ (∀ c2 r2, withOpt (call_opts c2) r' = Done r2 →
         beforeRequest r2
         = beforeRequest r ++ hooks_of (call_opts c1) ++ hooks_of (call_opts c2)).
Proof.
  intros H0 Hm0 Hb.
  pose proof (withOpt_call c1 r r0 m0 H0 Hm0) as H1.
  rewrite call_opts_split in H1.
  destruct (run_hooks (beforeRequest (configured c1 r0 m0)) (configured c1 r0 m0) w)
    as [[rf wf] e] eqn:Hrun.
  destruct (request_record (call_ctx c1) (call_url c1) (call_result c1) _ r w
              _ rf wf e H1 Hrun) as (w' & res & err & Hreq).
  assert (same_config (configured c1 r0 m0) rf) as Hsame.
  { eapply run_hooks_builtin; [|exact Hrun].
    apply Forall_app. split; [done|].
    apply Forall_singleton, builtin_call_beforeRequest. }
  destruct Hsame as (Hmeth & _ & _ & Hpar & Hchain & _ & _ & _ & Hresp).
  assert (beforeRequest rf = beforeRequest r ++ hooks_of (call_opts c1)) as Hhooks.
  { rewrite Hchain. simpl.
    rewrite (withOpt_beforeRequest _ _ _ H0), hooks_of_call. simpl.
    by rewrite <-(assoc_L (++)). }
  exists rf, w', res, err. rewrite invoke_request.
  split; [done|]. split; [done|]. split; [done|]. split; [done|].
  split; [done|]. split.
  - intros c2. unfold successive. by rewrite invoke_request, Hreq.
  - intros c2 r2 H2. rewrite (withOpt_beforeRequest _ _ _ H2), Hhooks.
    by rewrite <-(assoc_L (++)).
Qed.

End facade_claims.

Section verbs.
Context `{Platform}.

(** What the hook of [Post] and [Put] leaves when it returns no error. *)
Lemma Body_beforeRequest_ok errText logText rp wp rf wf m :
  Body_beforeRequest errText logText rp wp = (rf, wf, None) →
  param rp = Some m →
  ∃ data, json_Marshal m = inr data ∧ body rf = Some data ∧ url rf = url rp.
Proof.
  unfold Body_beforeRequest. intros Hhook Hm. rewrite Hm in Hhook.
  destruct (json_Marshal m) as [e|data]; [done|].
  injection Hhook as <- _. by exists data.
Qed.


(** What the hook of [Get] leaves when it returns no error. *)
Lemma Get_beforeRequest_ok url0 rp wp rf wf :
  Get_beforeRequest url0 rp wp = (rf, wf, None) →
  ∃ u, url_Parse url0 = inr u
       ∧ url rf = URL_String (set_RawQuery
                                (Values_Encode (range_Add (param rp))) u).
Proof.
  unfold Get_beforeRequest. intros Hhook.
  destruct (url_Parse url0) as [e|u]; [done|].
  injection Hhook as <- _. eauto.
Qed.

(** C3, as the code has it. For a non-nil parameter map [P], [Post] and
    [Put] merge [P] into the parameter map of the record ([m0] after the
    caller's options), and the body of the request they send is exactly
    the JSON encoding of the merged map; that is the encoding of [P]
    itself when the record's map held nothing before the merge. *)
Theorem C3_body_is_json_of_merged_params
    c ctx url0 (P : gmap string any) result opts r w r0 m0 req :
  c = CallPost ctx url0 (Some P) result opts
  ∨ c = CallPut ctx url0 (Some P) result opts →
  withOpt (WithUrl (call_url c) :: caller_opts c) r = Done r0 →
  param r0 = Some m0 →
  Forall builtin (beforeRequest r0) →
  outbound (call_ctx c) (call_opts c) r w = Some req →
  ∃ data,
    json_Marshal (P ∪ m0) = inr data
    ∧ req_Body req = Some data
    ∧ (m0 = ∅ → json_Marshal P = inr data)
    ∧ ∃ r' w' res err,
        invoke c r w = Returned r' w' res err ∧ sent w' = sent w ++ [req].
Proof.
  intros Hc H0 Hm0 Hb Hout.
  destruct (outbound_call c r w r0 m0 req H0 Hm0 Hb Hout)
    as (rp & wp & rf & wf & _ & Hsame & Hlast & _ & _ & Hbody).
  destruct Hsame as (_ & _ & _ & Hpar & _).
  assert (param rp = Some (P ∪ m0)) as Hp
      by (rewrite Hpar; destruct Hc as [-> | ->]; done).
  assert (∃ data, json_Marshal (P ∪ m0) = inr data ∧ body rf = Some data)
    as (data & Hdata & Hrf).
  { destruct Hc as [-> | ->]; simpl in Hlast;
      destruct (Body_beforeRequest_ok _ _ _ _ _ _ _ Hlast Hp)
        as (data & ? & ? & _); eauto. }
  exists data. split; [done|]. split; [congruence|].
  split; [intros ->; by rewrite (right_id_L ∅ (∪)) in Hdata|].
  rewrite invoke_request. rewrite call_opts_split in Hout.
  by apply request_outbound.
Qed.



(** C10. The hook of [Get] rebuilds the url from the [url] argument of
    [Get]: the URL of the request sent, and the url the record is left
    with, is the parsed argument with its query replaced by the encoding
    of the parameter map. Neither the query the argument carried nor the
    url the record held when the hook ran (the caller's [WithUrl], if
    any) has a part in it. *)
Theorem C10_get_rebuilds_url_from_argument
    ctx url0 result opts r w r0 m0 req :
  withOpt (WithUrl url0 :: opts) r = Done r0 →
  param r0 = Some m0 →
  Forall builtin (beforeRequest r0) →
  outbound ctx (call_opts (CallGet ctx url0 result opts)) r w = Some req →
  ∃ u,
    url_Parse url0 = inr u
    ∧ req_URL req =
        URL_String {| Scheme := Scheme u; Host := Host u; Path := Path u;
                      ForceQuery := ForceQuery u;
                      RawQuery := Values_Encode (range_Add (Some m0));
                      Fragment := Fragment u |}
    ∧ ∃ r' w' res err,
        Get ctx url0 result opts r w = Returned r' w' res err
        ∧ url r' = req_URL req
        ∧ sent w' = sent w ++ [req].
Proof.
  intros H0 Hm0 Hb Hout.
  pose proof Hout as Hout'. unfold outbound in Hout'.
  rewrite (withOpt_call (CallGet ctx url0 result opts) r r0 m0 H0 Hm0) in Hout'.
  destruct (run_hooks _ _ w) as [[rf wf] [e|]] eqn:Hrun; [done|].
  destruct (NewRequestWithContext _ _ _ _) as [e|req0] eqn:Hnew; [done|].
  injection Hout' as <-.
  destruct (outbound_call (CallGet ctx url0 result opts) r w r0 m0 _
              H0 Hm0 Hb Hout)
    as (rp & wp & rf' & wf' & _ & Hsame & Hlast & _ & Hurl & _).
  destruct Hsame as (_ & _ & _ & Hpar & _). simpl in Hpar, Hlast.
  rewrite (left_id_L ∅ (∪)) in Hpar.
  destruct (Get_beforeRequest_ok _ _ _ _ _ Hlast) as (u & Hparse & Hu).
  rewrite Hpar in Hu. exists u. split; [done|]. split; [by rewrite Hurl, Hu|].
  pose proof (withOpt_call (CallGet ctx url0 result opts) r r0 m0 H0 Hm0) as H1.
  rewrite call_opts_split in H1, Hout. simpl in H1, Hout.
  destruct (request_record ctx url0 result _ r w _ rf wf None H1 Hrun)
    as (w' & res & err & Hreq).
  destruct (request_outbound ctx url0 result _ r w _ Hout)
    as (r'' & w'' & res'' & err'' & Hreq' & Hsent).
  unfold Get. rewrite Hreq in Hreq'. injection Hreq' as <- <- <- <-.
  exists rf, w', res, err. split; [done|]. split; [|done].
  unfold NewRequestWithContext in Hnew.
  destruct (http_NewRequest_check _ _); [done|]. by injection Hnew as <-.
Qed.
End verbs.

(** ** The maps of the record stay allocated *)

Section invariant.
Context `{Platform}.

(** On a record with allocated maps the url option and the caller's
    options never panic, and the parameter map they leave is allocated. *)
Lemma caller_opts_applied url0 opts r :
  allocated r →
  ∃ r0 m0, withOpt (WithUrl url0 :: opts) r = Done r0 ∧ param r0 = Some m0.
Proof.
  intros Hr. destruct (withOpt_allocated (WithUrl url0 :: opts) r Hr)
    as (r0 & H0 & [[m0 Hm0] _]). eauto.
Qed.

(** A facade call on such a record, with none but the facade's hooks in the
    chain, returns (it does not panic) and leaves such a record. *)
Lemma invoke_allocated c r w :
  allocated r →
  Forall builtin (beforeRequest r) →
  Forall builtin (hooks_of (caller_opts c)) →
  ∃ r' w' res err,
    invoke c r w = Returned r' w' res err
    ∧ allocated r'
    ∧ Forall builtin (beforeRequest r').
Proof.
  intros Hr Hb Hc.
  destruct (withOpt_allocated (call_opts c) r Hr) as (r1 & H1 & Hr1).
  assert (Forall builtin (beforeRequest r1)) as Hb1.
  { rewrite (withOpt_beforeRequest _ _ _ H1), hooks_of_call.
    rewrite !Forall_app. split; [done|]. split; [done|].
    apply Forall_singleton, builtin_call_beforeRequest. }
  destruct (run_hooks (beforeRequest r1) r1 w) as [[rf wf] e] eqn:Hrun.
  rewrite call_opts_split in H1.
  destruct (request_record (call_ctx c) (call_url c) (call_result c) _ r w
              _ rf wf e H1 Hrun) as (w' & res & err & Hreq).
  destruct (run_hooks_builtin _ _ _ _ _ _ Hb1 Hrun)
    as (_ & _ & Hh & Hp & Hchain & _).
  exists rf, w', res, err. rewrite invoke_request.
  split; [done|]. split.
  - destruct Hr1. split; congruence.
  - by rewrite Hchain.
Qed.
End invariant.

(** ** The scenarios of the specification, run on the sample platform *)

Example Post_scenario :
  let o := @Post (sample_platform (serve "" None) no_hooks) 1 "http://x/b"
             (Some {[ "n" := anyInt 1 ]}) Nil [] New world0 in
  (req_Body <$> last_sent o, req_Method <$> last_sent o, error_of o)
  = (Some (Some (json_kn "n" 1)), Some "POST", None).
Proof. vm_compute. reflexivity. Qed.

Example plain_into_string :
  let o := @Get (sample_platform (serve "plain" None) no_hooks) 1 "http://x/a"
             (PointerTo reflect_String true (anyString "")) [] New world0 in
  (target_of o, error_of o)
  = (Some (PointerTo reflect_String true (anyString "plain")), None).
Proof. vm_compute. reflexivity. Qed.

Example plain_into_int :
  let o := @Get (sample_platform (serve "plain" None) no_hooks) 1 "http://x/a"
             (PointerTo reflect_Int true (anyInt 0)) [] New world0 in
  (target_of o, error_of o)
  = (Some (PointerTo reflect_Int true (anyInt 0)),
     Some (errorString "result must be a string")).
Proof. vm_compute. reflexivity. Qed.

(** * The statements on concrete calls *)

Lemma C7_witness :
  (r' ← apply (WithTimeout 5) New; apply (WithTimeout 5) r')
  = apply (WithTimeout 5) New
  ∧ (r' ← apply (WithParam (Some {[ "a" := anyInt 1 ]})) New;
     apply (WithParam (Some {[ "b" := anyInt 2 ]})) r')
    = Done (set_param (Some ({[ "a" := anyInt 1 ]} ∪ {[ "b" := anyInt 2 ]})) New).
Proof.
  destruct (C7_options_idempotent_and_merges_accumulate
              (WithTimeout 5)
              (Some {[ "a" := anyInt 1 ]}) (Some {[ "b" := anyInt 2 ]})
              (Some {[ "X" := "1" ]}) (Some {[ "Y" := "2" ]}) New)
    as (Hidem & _ & Hunion & _).
  - exact I.
  - apply map_disjoint_singleton_l. reflexivity.
  - apply map_disjoint_singleton_l. reflexivity.
  - split; [exact Hidem|]. apply Hunion. reflexivity.
Defined.

Lemma C8_witness :
  let P := sample_platform (serve "" None) failing_hooks in
  let opts := [WithBeforeRequest (UserHook 0); WithBeforeRequest PostHook] in
  let r1 := set_beforeRequest [UserHook 0; PostHook] (set_url "http://x/a" New) in
  ∃ err,
    @request P 1 "http://x/a" Nil opts New world0 = Returned r1 world0 Nil (Some err)
    ∧ Unwrap err = Some (errorString "hook failed")
    ∧ sent world0 = sent world0
    ∧ @outbound P 1 (WithUrl "http://x/a" :: opts) New world0 = None.
Proof.
  intros P opts r1.
  apply (@C8_hook_error_aborts P 1 "http://x/a" Nil opts New world0 r1
           [] (UserHook 0) [PostHook] r1 world0 r1 world0
           (errorString "hook failed")); reflexivity.
Defined.







Lemma C1_witness :
  let P := sample_platform (serve "" None) no_hooks in
  let c1 := CallPost 1 "http://x/b" (Some {[ "n" := anyInt 1 ]}) Nil [] in
  ∃ r' w' res err,
    @invoke P c1 New world0 = Returned r' w' res err
    ∧ beforeRequest r' = [PostHook]
    ∧ method r' = "POST"
    ∧ param r' = Some ({[ "n" := anyInt 1 ]} ∪ ∅)
    ∧ (∀ c2, @successive P c1 c2 New world0 = @invoke P c2 r' w').
Proof.
  intros P c1.
  destruct (@C1_calls_share_the_record P c1 New world0
              (set_url "http://x/b" New) ∅)
    as (r' & w' & res & err & Hinv & Hhooks & Hmeth & Hpar & _ & Hnext & _).
  - reflexivity.
  - reflexivity.
  - constructor.
  - exists r', w', res, err. repeat split; assumption.
Defined.

(** C1 as stated fails: after a [Post] (here the package-level one, on
    [defaultHttp]), the record the next call starts from is not a fresh one. It holds the hook, the parameters, the method,
    the url and the body slot of the [Post]; a following [Get] with no
    option of its own sends the parameters of the [Post] in its query. *)
Lemma C1_counterexample :
  let P := sample_platform (serve "" None) no_hooks in
  let c1 := CallPost 1 "http://x/b" (Some {[ "n" := anyInt 1 ]}) Nil [] in
  let c2 := CallGet 1 "http://x/a" Nil [] in
  let o1 := @invoke P c1 defaultHttp world0 in
  beforeRequest <$> record_of o1 = Some [PostHook]
  ∧ param <$> record_of o1 = Some (Some {[ "n" := anyInt 1 ]})
  ∧ method <$> record_of o1 = Some "POST"
  ∧ url <$> record_of o1 = Some "http://x/b"
  ∧ (λ r, bool_decide (is_Some (body r))) <$> record_of o1 = Some true
  ∧ beforeRequest New = []
  ∧ param New = Some ∅
  ∧ req_URL <$> last_sent (@successive P c1 c2 defaultHttp world0)
    = Some "http://x/a?n=1"
  ∧ beforeRequest <$> record_of (@successive P c1 c2 defaultHttp world0)
    = Some [PostHook; GetHook "http://x/a"].
Proof. vm_compute. repeat split; reflexivity. Qed.

Lemma C3_witness :
  let P := sample_platform (serve "" None) no_hooks in
  let c := CallPost 1 "http://x/b" (Some {[ "n" := anyInt 1 ]}) Nil [] in
  let req := sample_Request 1 "POST" "http://x/b" (Some (json_kn "n" 1)) in
  ∃ data,
    sample_Marshal ({[ "n" := anyInt 1 ]} ∪ ∅) = inr data
    ∧ req_Body req = Some data
    ∧ ((∅ : gmap string any) = ∅ → sample_Marshal {[ "n" := anyInt 1 ]} = inr data)
    ∧ ∃ r' w' res err,
        @invoke P c New world0 = Returned r' w' res err
        ∧ sent w' = sent world0 ++ [req].
Proof.
  intros P c req.
  apply (@C3_body_is_json_of_merged_params P c 1 "http://x/b"
           {[ "n" := anyInt 1 ]} Nil [] New world0 (set_url "http://x/b" New) ∅ req).
  - left. reflexivity.
  - reflexivity.
  - reflexivity.
  - constructor.
  - vm_compute. reflexivity.
Defined.

(** C3 as stated fails. With another parameter in the record (here from a
    caller's [WithParam]) the body is the JSON encoding of the merged map,
    not of [P]. With a nil parameter map the hook is not skipped either: the
    record's own map is the empty map [New] allocated, and its encoding is
    sent as the body. *)
Lemma C3_counterexample :
  let P := sample_platform (serve "" None) no_hooks in
  let o := @Post P 1 "http://x/b" (Some {[ "n" := anyInt 1 ]}) Nil
             [WithParam (Some {[ "a" := anyString "x" ]})] New world0 in
  let o' := @Post P 1 "http://x/b" None Nil [] New world0 in
  req_Body <$> last_sent o
  = Some (Some ("{" +:+ quoted "a" +:+ ":" +:+ quoted "x" +:+ ","
                    +:+ quoted "n" +:+ ":1}"))
  ∧ sample_Marshal {[ "n" := anyInt 1 ]} = inr (json_kn "n" 1)
  ∧ req_Body <$> last_sent o ≠ Some (Some (json_kn "n" 1))
  ∧ req_Body <$> last_sent o' = Some (Some "{}")
  ∧ body <$> record_of o' = Some (Some "{}").
Proof.
  vm_compute. split; [reflexivity|]. split; [reflexivity|].
  split; [discriminate|]. split; reflexivity.
Qed.




Lemma C10_witness :
  let P := sample_platform (serve "" None) no_hooks in
  let opts := [WithUrl "http://other/"; WithParam (Some {[ "q" := anyString "1" ]})] in
  let req := sample_Request 1 "GET" "http://x/a?q=1" None in
  ∃ r' w' res err,
    @Get P 1 "http://x/a?old=0" Nil opts New world0 = Returned r' w' res err
    ∧ url r' = "http://x/a?q=1"
    ∧ sent w' = [req].
Proof.
  intros P opts req.
  destruct (@C10_get_rebuilds_url_from_argument P 1 "http://x/a?old=0" Nil opts
              New world0
              (set_param (Some ({[ "q" := anyString "1" ]} ∪ ∅))
                 (set_url "http://other/" New))
              ({[ "q" := anyString "1" ]} ∪ ∅) req)
    as (u & _ & _ & r' & w' & res & err & Hget & Hurl & Hsent).
  - vm_compute. reflexivity.
  - reflexivity.
  - constructor.
  - vm_compute. reflexivity.
  - exists r', w', res, err. split; [exact Hget|]. split; [exact Hurl|exact Hsent].
Defined.

(** * Further properties of the options *)

(** X1. [WithTimeout t] stores [t] seconds exactly when [t] lies between
    -9223372036 and 9223372036; outside that range the product with
    [time.Second] wraps around in int64 and another duration is stored. The
    stored value is an int64 in both cases. *)
Theorem X1_WithTimeout_seconds_or_wraps (t : Z) (r : parameter) :
  ∃ r', apply (WithTimeout t) r = Done r'
        ∧ (timeout r' = t * time_Second ↔ -9223372036 ≤ t ≤ 9223372036)
        ∧ - 2 ^ 63 ≤ timeout r' < 2 ^ 63.
Proof.
  eexists. split; [reflexivity|]. simpl. unfold wrap64, time_Second.
  assert (0 ≤ (t * 1000000000 + 2 ^ 63) `mod` 2 ^ 64 < 2 ^ 64) as Hmod
      by (apply Z.mod_pos_bound; lia).
  split; [|lia]. split.
  - intros Heq. lia.
  - intros Ht. rewrite Z.mod_small by lia. lia.
Qed.

(** X2. On a record whose maps are allocated, [WithParam] and [WithHeader]
    merge key by key: a key of the argument gets the argument's value,
    every other key keeps the value the record had, and no other field of
    the record changes. *)
Theorem X2_merge_overrides_and_keeps
    (P : gomap any) (Hd : gomap string) (r : parameter) m h :
  param r = Some m →
  header r = Some h →
  (∃ m', apply (WithParam P) r = Done (set_param (Some m') r)
         ∧ ∀ k, m' !! k = match entries P !! k with
                          | Some v => Some v
                          | None => m !! k
                          end)
  ∧ (∃ h', apply (WithHeader Hd) r = Done (set_header (Some h') r)
           ∧ ∀ k, h' !! k = match entries Hd !! k with
                            | Some v => Some v
                            | None => h !! k
                            end).
Proof.
  intros Hm Hh. split.
  - exists (entries P ∪ m). simpl. rewrite Hm, range_assign_Some.
    split; [done|]. intros k. rewrite lookup_union.
    destruct (entries P !! k), (m !! k); done.
  - exists (entries Hd ∪ h). simpl. rewrite Hh, range_assign_Some.
    split; [done|]. intros k. rewrite lookup_union.
    destruct (entries Hd !! k), (h !! k); done.
Qed.

(** X3. On a record whose parameter map (header map) is nil, [WithParam]
    ([WithHeader]) panics as soon as its argument has an entry; with a nil
    or empty argument it leaves the record as it is. *)
Theorem X3_merge_into_nil_map (P : gomap any) (Hd : gomap string) (r : parameter) :
  (param r = None →
   apply (WithParam P) r = if decide (entries P = ∅) then Done r else Panic)
  ∧ (header r = None →
     apply (WithHeader Hd) r = if decide (entries Hd = ∅) then Done r else Panic).
Proof.
  split; intros Hnil; simpl; rewrite Hnil, range_assign_None;
    repeat case_decide; simpl; try done; destruct r; simpl in *; by subst.
Qed.

(** X4. Scalar options compose as assignments: of two options that write
    the same field the later one wins, and two options that write
    different fields can be applied in either order. *)
Theorem X4_scalar_options_last_writer_wins (o1 o2 : Option) (r : parameter) :
  scalar o1 →
  scalar o2 →
  (same_field o1 o2 → (r' ← apply o1 r; apply o2 r') = apply o2 r)
  ∧ (¬ same_field o1 o2 →
     (r' ← apply o1 r; apply o2 r') = (r' ← apply o2 r; apply o1 r')).
Proof.
  intros H1 H2.
  destruct o1; simpl in H1; try done;
    destruct o2; simpl in H2; try done;
    (split; [intros Hs | intros Hn]); simpl in *; try done;
    try (by destruct Hn).
Qed.

Lemma withOpt_url (opts : list Option) (r r' : parameter) :
  withOpt opts r = Done r' → url r' = url_after opts (url r).
Proof.
  revert r. induction opts as [|o opts IH]; intros r; simpl.
  - by intros [= <-].
  - destruct (apply o r) as [r1|] eqn:Ho; simpl; [|done].
    intros Hr'. apply IH in Hr'. rewrite Hr'.
    destruct o; simpl in Ho; try (injection Ho as <-; done).
    + destruct (range_assign params (param r)); simplify_eq/=; done.
    + destruct (range_assign headers (header r)); simplify_eq/=; done.
Qed.

(** X5. [withOpt] only ever appends to the hook chain, in the order of the
    [WithBeforeRequest] options, and the url it leaves is that of the last
    [WithUrl] option (the url the record had, when there is none). *)
Theorem X5_withOpt_appends_hooks (opts : list Option) (r r' : parameter) :
  withOpt opts r = Done r' →
  beforeRequest r' = beforeRequest r ++ hooks_of opts
  ∧ url r' = url_after opts (url r).
Proof.
  intros Hopt. split; [by apply withOpt_beforeRequest|by apply withOpt_url].
Qed.

(** * Further properties of the facade *)


Section calls.
Context `{Platform}.



End calls.


(** * Further properties of the executor *)

Section executor_more.
Context `{Platform}.

Lemma answer_world ctx opts r w r2 w2 resp :
  answer ctx opts r w = Some (r2, w2, resp) →
  heap w2 = heap w ∧ ∃ req, sent w2 = sent w ++ [req].
Proof.
  unfold answer.
  destruct (withOpt opts r) as [r1|]; [|done].
  destruct (run_hooks (beforeRequest r1) r1 w) as [[r2' w2'] [e|]] eqn:Hrun;
    [done|].
  apply run_hooks_world in Hrun as [Hsent Hheap].
  destruct (NewRequestWithContext _ _ _ _) as [e|req]; [done|].
  simpl. destruct (client_Do _ _) as [e|resp']; [done|].
  intros [= <- <- <-]. simpl. split; [done|]. eexists. by rewrite Hsent.
Qed.

(** X7. When [http.NewRequestWithContext] rejects the method or the url the
    hooks left, [request] returns an error that wraps the rejection; the
    transport is not called, no captured response is written and the result
    target is returned as it was. *)
Theorem X7_invalid_request_is_not_sent
    ctx url0 result opts r w r1 r2 w2 e :
  withOpt (WithUrl url0 :: opts) r = Done r1 →
  run_hooks (beforeRequest r1) r1 w = (r2, w2, None) →
  http_NewRequest_check (method r2) (url r2) = Some e →
  ∃ err,
    request ctx url0 result opts r w = Returned r2 w2 result (Some err)
    ∧ Unwrap err = Some e
    ∧ sent w2 = sent w
    ∧ heap w2 = heap w.
Proof.
  intros H1 Hrun Hcheck. unfold request, NewRequestWithContext.
  rewrite H1, Hrun, Hcheck.
  eexists. split; [reflexivity|]. split; [reflexivity|].
  by apply run_hooks_world in Hrun.
Qed.

(** X8. When the transport fails, [request] returns an error that wraps the
    transport's error. The request was handed to the transport once, the
    response body is neither read nor closed, no captured response is
    written and the result target is returned as it was. *)
Theorem X8_transport_failure
    ctx url0 result opts r w r1 r2 w2 req e :
  withOpt (WithUrl url0 :: opts) r = Done r1 →
  run_hooks (beforeRequest r1) r1 w = (r2, w2, None) →
  outbound ctx (WithUrl url0 :: opts) r w = Some req →
  client_Do {| Transport_TLSClientConfig := tLSClientConfig r2;
               Timeout := timeout r2 |} req = inl e →
  ∃ w' err,
    request ctx url0 result opts r w = Returned r2 w' result (Some err)
    ∧ Unwrap err = Some e
    ∧ sent w' = sent w ++ [req]
    ∧ heap w' = heap w.
Proof.
  intros H1 Hrun Hout HDo. unfold request, outbound in *.
  rewrite H1, Hrun in *.
  apply run_hooks_world in Hrun as [Hsent Hheap].
  destruct (NewRequestWithContext _ _ _ _) as [e0|req0]; [done|].
  injection Hout as <-. simpl. rewrite HDo.
  do 2 eexists. split; [reflexivity|]. split; [reflexivity|].
  simpl. by rewrite Hsent.
Qed.

(** X9. With a nil result target the response body is drained and never
    decoded, whatever it holds: the call returns nil when reading and
    closing the body succeed; a read error is returned wrapped. *)
Theorem X9_nil_result_discards_body ctx url0 opts r w r2 w2 resp :
  answer ctx (WithUrl url0 :: opts) r w = Some (r2, w2, resp) →
  rc_closeErr (resp_Body resp) = None →
  ∃ w3 err,
    request ctx url0 Nil opts r w = Returned r2 w3 Nil err
    ∧ (rc_readErr (resp_Body resp) = None → err = None)
    ∧ (∀ e, rc_readErr (resp_Body resp) = Some e →
         ∃ err', err = Some err' ∧ Unwrap err' = Some e).
Proof.
  intros Hans Hclose.
  rewrite (request_answer _ _ Nil _ _ _ _ _ _ Hans). clear Hans.
  destruct resp as [code hd [data rerr cerr]]. simpl in *. subst.
  unfold request_read, ReadAll, deferred_Close. simpl.
  destruct (response r2), rerr; simpl; do 2 eexists;
    (split; [reflexivity|]); split; try done;
    intros e' [= <-]; eauto.
Qed.

(** X10. With a response slot in the record and a body that reads to its
    end, the slot receives the status code and the headers of the response
    and a body that can be read again in full and closed without error; no
    other slot is written. *)
Theorem X10_response_is_captured ctx url0 result opts r w r2 w2 resp l :
  answer ctx (WithUrl url0 :: opts) r w = Some (r2, w2, resp) →
  response r2 = Some l →
  rc_readErr (resp_Body resp) = None →
  ∃ w3 res err captured,
    request ctx url0 result opts r w = Returned r2 w3 res err
    ∧ heap w3 !! l = Some captured
    ∧ resp_StatusCode captured = resp_StatusCode resp
    ∧ resp_Header captured = resp_Header resp
    ∧ (ReadAll (resp_Body captured)).1 = (rc_data (resp_Body resp), None)
    ∧ rc_closeErr (resp_Body captured) = None
    ∧ (∀ l', l' ≠ l → heap w3 !! l' = heap w !! l').
Proof.
  intros Hans Hl Herr.
  destruct (answer_world _ _ _ _ _ _ _ Hans) as [Hheap _].
  rewrite (request_answer _ _ result _ _ _ _ _ _ Hans). clear Hans.
  destruct resp as [code hd [data rerr cerr]]. simpl in *. subst.
  assert (∃ res err,
            request_read r2 result
              {| resp_StatusCode := code; resp_Header := hd;
                 resp_Body := {| rc_data := data; rc_readErr := None;
                                 rc_closeErr := cerr |} |} w2
            = (store l {| resp_StatusCode := code; resp_Header := hd;
                          resp_Body := NopCloser data |} w2, res, err))
    as (res & err & ->).
  { unfold request_read, ReadAll. rewrite Hl. simpl.
    destruct result; simpl; repeat case_match; simplify_eq/=; eauto. }
  do 3 eexists. eexists. split; [reflexivity|]. simpl.
  rewrite lookup_insert_eq. split; [reflexivity|].
  repeat split. intros l' Hl'. by rewrite lookup_insert_ne, Hheap.
Qed.

(** X11. Buffering the body for the response slot changes nothing in what
    is decoded: with a body that reads to its end, the result target and the
    pending error are the same with and without a response slot. *)
Theorem X11_capture_does_not_change_decoding
    (r : parameter) (l : loc) (result : target) (resp : Response) (w : world) :
  rc_readErr (resp_Body resp) = None →
  (request_read (set_response (Some l) r) result resp w).1.2
  = (request_read (set_response None r) result resp w).1.2
  ∧ (request_read (set_response (Some l) r) result resp w).2
    = (request_read (set_response None r) result resp w).2.
Proof.
  intros Herr. destruct resp as [code hd [data rerr cerr]]. simpl in *. subst.
  unfold request_read, ReadAll. simpl.
  destruct result; simpl; [done|..];
    destruct (decide (String.length data = 0%nat)) as [Hz|Hz]; simpl;
    rewrite ?decide_True by done; rewrite ?decide_False by done;
    try (destruct data; [|done]; simpl; done);
    destruct (json_Valid data); simpl;
    repeat case_match; simplify_eq/=; done.
Qed.

(** X12. Once the transport has answered, a failure to close the response
    body is always reported: whatever the result target and the body, the
    call returns an error that wraps the close error. When the close
    succeeds the call returns what the read and decode part left pending. *)
Theorem X12_close_error_is_reported ctx url0 result opts r w r2 w2 resp :
  answer ctx (WithUrl url0 :: opts) r w = Some (r2, w2, resp) →
  ∃ w3 res err,
    request ctx url0 result opts r w = Returned r2 w3 res err
    ∧ (∀ closeErr, rc_closeErr (resp_Body resp) = Some closeErr →
         ∃ err', err = Some err' ∧ Unwrap err' = Some closeErr)
    ∧ (rc_closeErr (resp_Body resp) = None →
       err = (request_read r2 result resp w2).2).
Proof.
  intros Hans.
  rewrite (request_answer _ _ result _ _ _ _ _ _ Hans).
  destruct (request_read r2 result resp w2) as [[w3 res] err].
  do 3 eexists. split; [reflexivity|]. unfold deferred_Close. split.
  - intros closeErr ->. eauto.
  - by intros ->.
Qed.

(** X13. A response body that fails to read is never decoded: whatever the
    result target, the call returns it as it was, with an error that wraps
    the read error (when closing the body succeeds). *)
Theorem X13_read_failure ctx url0 result opts r w r2 w2 resp e :
  answer ctx (WithUrl url0 :: opts) r w = Some (r2, w2, resp) →
  rc_readErr (resp_Body resp) = Some e →
  rc_closeErr (resp_Body resp) = None →
  ∃ w3 err,
    request ctx url0 result opts r w = Returned r2 w3 result (Some err)
    ∧ Unwrap err = Some e.
Proof.
  intros Hans Herr Hclose.
  rewrite (request_answer _ _ result _ _ _ _ _ _ Hans). clear Hans.
  destruct resp as [code hd [data rerr cerr]]. simpl in *. subst.
  unfold request_read, ReadAll, deferred_Close. simpl.
  destruct (response r2), result; simpl;
    repeat case_match; simplify_eq/=; do 2 eexists; split; reflexivity.
Qed.
End executor_more.

(** * Further properties of the request that is built *)

Section headers.
Context `{Platform}.



End headers.

(** * Further properties of the facade's hooks *)

Section hooks_more.
Context `{Platform}.

Lemma Println_printed_None args w : printed (Println None args w) = printed w.
Proof. done. Qed.

Lemma call_hook_silent h r w r' w' e :
  builtin h → log r = None → call_hook h r w = (r', w', e) → printed w' = printed w.
Proof.
  destruct h; simpl; try done; intros _ Hlog;
    unfold Get_beforeRequest, Post_beforeRequest, Put_beforeRequest,
      Body_beforeRequest, Delete_beforeRequest;
    repeat (case_match; simplify_eq/=); intros; simplify_eq; simpl;
    rewrite ?Hlog; done.
Qed.

Lemma run_hooks_silent hs r w r' w' e :
  Forall builtin hs → log r = None → run_hooks hs r w = (r', w', e) →
  printed w' = printed w.
Proof.
  intros Hb. revert r w. induction Hb as [|h hs Hh Hhs IH]; intros r w Hlog; simpl.
  - by intros [= <- <- <-].
  - destruct (call_hook h r w) as [[r1 w1] [e1|]] eqn:Hcall.
    + intros [= <- <- <-]. by eapply call_hook_silent.
    + intros Hrun.
      pose proof (call_hook_builtin _ _ _ _ _ _ Hh Hcall)
        as (_ & _ & _ & _ & _ & _ & Hlog1 & _).
      rewrite (IH r1 w1) by (congruence || done).
      by eapply call_hook_silent.
Qed.

Lemma request_read_printed r result resp w w' res err :
  request_read r result resp w = (w', res, err) → printed w' = printed w.
Proof.
  unfold request_read, ReadAll, assign_string.
  repeat (case_match; simplify_eq/=); intros; simplify_eq/=; done.
Qed.

(** X15. The four hooks of the facade write the url and the body of the
    record and nothing else in it; they call no transport and write no
    captured response. This holds for a whole chain of them, whether it
    ends in an error or not. *)
Theorem X15_facade_hooks_write_url_and_body hs r w r' w' e :
  Forall builtin hs →
  run_hooks hs r w = (r', w', e) →
  same_config r r' ∧ sent w' = sent w ∧ heap w' = heap w.
Proof.
  intros Hb Hrun. split; [by eapply run_hooks_builtin|by eapply run_hooks_world].
Qed.

(** X16. Without a logger in the record a call prints nothing, whatever
    its outcome. *)
Theorem X16_no_logger_no_output ctx url0 result opts r w r1 r' w' res err :
  withOpt (WithUrl url0 :: opts) r = Done r1 →
  log r1 = None →
  Forall builtin (beforeRequest r1) →
  request ctx url0 result opts r w = Returned r' w' res err →
  printed w' = printed w.
Proof.
  intros H1 Hlog Hb. unfold request. rewrite H1.
  destruct (run_hooks (beforeRequest r1) r1 w) as [[r2 w2] [e|]] eqn:Hrun;
    apply run_hooks_silent in Hrun; try done.
  { by intros [= <- <- <- <-]. }
  destruct (NewRequestWithContext _ _ _ _) as [e|req].
  { by intros [= <- <- <- <-]. }
  simpl. destruct (client_Do _ _) as [e|resp].
  { by intros [= <- <- <- <-]. }
  destruct (request_read _ _ _ _) as [[w3 res3] err3] eqn:Hread.
  apply request_read_printed in Hread. intros [= <- <- <- <-]. by rewrite Hread.
Qed.


(** X18. When [json.Marshal] rejects the merged parameter map, [Post],
    [Put] and [Delete] return an error whose chain leads to the marshalling
    error; nothing is sent and the hook leaves the record as it found it
    (no body is installed). *)
Theorem X18_marshal_failure c r w r0 m0 rp wp e :
  builds_body c →
  withOpt (WithUrl (call_url c) :: caller_opts c) r = Done r0 →
  param r0 = Some m0 →
  Forall builtin (beforeRequest r0) →
  run_hooks (beforeRequest r0) (configured c r0 m0) w = (rp, wp, None) →
  json_Marshal (entries (call_param c) ∪ m0) = inl e →
  ∃ err inner,
    invoke c r w = Returned rp wp (call_result c) (Some err)
    ∧ Unwrap err = Some inner
    ∧ Unwrap inner = Some e
    ∧ sent wp = sent w.
Proof.
  intros Hc H0 Hm0 Hb Hpre Hmar.
  pose proof (run_hooks_builtin _ _ _ _ _ _ Hb Hpre) as (_ & _ & _ & Hpar & _).
  simpl in Hpar.
  pose proof (run_hooks_world _ _ _ _ _ _ Hpre) as [Hsent _].
  pose proof (withOpt_call c r r0 m0 H0 Hm0) as H1.
  rewrite call_opts_split in H1.
  rewrite invoke_request. unfold request. rewrite H1.
  change (beforeRequest (configured c r0 m0))
    with (beforeRequest r0 ++ [call_beforeRequest c]).
  rewrite run_hooks_app, Hpre. simpl run_hooks.
  destruct c; simpl in *; [done|..];
    unfold Post_beforeRequest, Put_beforeRequest, Body_beforeRequest,
      Delete_beforeRequest;
    rewrite Hpar, Hmar; do 2 eexists; repeat split; done.
Qed.

(** X19. When the url argument does not parse, [Get] returns an error
    whose chain leads to the parse error and sends nothing. [Delete] with
    the delete-uri flag set does the same, but only after it has installed
    the JSON body in the record. *)
Theorem X19_unparsable_url ctx url0 P result opts r w r0 m0 rp wp e :
  withOpt (WithUrl url0 :: opts) r = Done r0 →
  param r0 = Some m0 →
  Forall builtin (beforeRequest r0) →
  url_Parse url0 = inl e →
  (run_hooks (beforeRequest r0) (configured (CallGet ctx url0 result opts) r0 m0) w
   = (rp, wp, None) →
   ∃ err inner,
     Get ctx url0 result opts r w = Returned rp wp result (Some err)
     ∧ Unwrap err = Some inner ∧ Unwrap inner = Some e
     ∧ sent wp = sent w)
  ∧ (run_hooks (beforeRequest r0)
       (configured (CallDelete ctx url0 P result opts) r0 m0) w
     = (rp, wp, None) →
     deleteUriFlag r0 = true →
     ∀ data, json_Marshal (entries P ∪ m0) = inr data →
     ∃ r' w' err inner,
       Delete ctx url0 P result opts r w = Returned r' w' result (Some err)
       ∧ Unwrap err = Some inner ∧ Unwrap inner = Some e
       ∧ sent w' = sent w
       ∧ body r' = Some data).
Proof.
  intros H0 Hm0 Hb Hparse. split.
  - intros Hpre.
    pose proof (run_hooks_world _ _ _ _ _ _ Hpre) as [Hsent _].
    pose proof (withOpt_call (CallGet ctx url0 result opts) r r0 m0 H0 Hm0) as H1.
    rewrite call_opts_split in H1.
    change (Get ctx url0 result opts r w)
      with (invoke (CallGet ctx url0 result opts) r w).
    rewrite invoke_request. unfold request. rewrite H1.
    change (beforeRequest (configured (CallGet ctx url0 result opts) r0 m0))
      with (beforeRequest r0 ++ [GetHook url0]).
    rewrite run_hooks_app, Hpre. simpl. unfold Get_beforeRequest.
    rewrite Hparse. do 2 eexists. repeat split; done.
  - intros Hpre Hflag data Hdata.
    pose proof (run_hooks_builtin _ _ _ _ _ _ Hb Hpre)
      as (_ & _ & _ & Hpar & _ & _ & _ & Hfl & _).
    simpl in Hpar, Hfl.
    pose proof (run_hooks_world _ _ _ _ _ _ Hpre) as [Hsent _].
    pose proof (withOpt_call (CallDelete ctx url0 P result opts) r r0 m0 H0 Hm0)
      as H1.
    rewrite call_opts_split in H1.
    change (Delete ctx url0 P result opts r w)
      with (invoke (CallDelete ctx url0 P result opts) r w).
    rewrite invoke_request. unfold request. rewrite H1.
    change (beforeRequest (configured (CallDelete ctx url0 P result opts) r0 m0))
      with (beforeRequest r0 ++ [DeleteHook url0]).
    rewrite run_hooks_app, Hpre. simpl. unfold Delete_beforeRequest.
    rewrite Hpar, Hdata. simpl. rewrite Hfl, Hflag, Hparse.
    do 4 eexists. split; [reflexivity|]. split; [reflexivity|].
    split; [reflexivity|]. split; [|reflexivity].
    destruct (log rp); simpl; done.
Qed.


End hooks_more.

(** * The further properties on concrete calls *)

Lemma X2_witness :
  ∃ m', apply (WithParam (Some {[ "a" := anyInt 2 ]}))
          (set_param (Some {[ "a" := anyInt 1; "b" := anyInt 3 ]}) New)
        = Done (set_param (Some m')
                  (set_param (Some {[ "a" := anyInt 1; "b" := anyInt 3 ]}) New))
        ∧ m' !! "a" = Some (anyInt 2) ∧ m' !! "b" = Some (anyInt 3).
Proof.
  destruct (X2_merge_overrides_and_keeps
              (Some {[ "a" := anyInt 2 ]}) None
              (set_param (Some {[ "a" := anyInt 1; "b" := anyInt 3 ]}) New)
              {[ "a" := anyInt 1; "b" := anyInt 3 ]}
              (<["Connection" := "close"]>
                 (<["Content-Type" := "application/json"]> ∅)))
    as [(m' & Happ & Hlook) _].
  - reflexivity.
  - reflexivity.
  - exists m'. split; [exact Happ|]. split; rewrite Hlook; reflexivity.
Defined.

Lemma X4_witness :
  (r' ← apply (WithUrl "http://a/") New; apply (WithUrl "http://b/") r')
  = apply (WithUrl "http://b/") New.
Proof.
  apply (X4_scalar_options_last_writer_wins
           (WithUrl "http://a/") (WithUrl "http://b/") New); exact I.
Defined.

Lemma X5_witness :
  let opts := [WithBeforeRequest PostHook; WithUrl "http://a/";
               WithBeforeRequest (UserHook 3); WithUrl "http://b/"] in
  let r' := set_beforeRequest [PostHook; UserHook 3] (set_url "http://b/" New) in
  beforeRequest r' = beforeRequest New ++ hooks_of opts
  ∧ url r' = url_after opts (url New).
Proof.
  intros opts r'.
  apply (X5_withOpt_appends_hooks opts New r'). reflexivity.
Defined.

Lemma X7_witness :
  let P := sample_platform (serve "" None) no_hooks in
  ∃ err,
    @request P 1 bad_url Nil [] New world0
    = Returned (set_url bad_url New) world0 Nil (Some err)
    ∧ Unwrap err = Some (errorString "net/url: invalid control character in URL")
    ∧ sent world0 = sent world0
    ∧ heap world0 = heap world0.
Proof.
  intros P.
  apply (@X7_invalid_request_is_not_sent P 1 bad_url Nil [] New world0
           (set_url bad_url New)); reflexivity.
Defined.

Lemma X8_witness :
  let P := sample_platform (refuse (errorString "dial tcp: refused")) no_hooks in
  let req := sample_Request 1 "GET" "http://x/a" None in
  ∃ w' err,
    @request P 1 "http://x/a" (PointerTo reflect_String true (anyString "old"))
      [] New world0
    = Returned (set_url "http://x/a" New) w'
        (PointerTo reflect_String true (anyString "old")) (Some err)
    ∧ Unwrap err = Some (errorString "dial tcp: refused")
    ∧ sent w' = sent world0 ++ [req]
    ∧ heap w' = heap world0.
Proof.
  intros P req.
  apply (@X8_transport_failure P 1 "http://x/a" _ [] New world0
           (set_url "http://x/a" New) (set_url "http://x/a" New) world0 req).
  - reflexivity.
  - reflexivity.
  - vm_compute. reflexivity.
  - reflexivity.
Defined.

Lemma X9_witness :
  let P := sample_platform (serve "not json at all" None) no_hooks in
  ∃ w3, @request P 1 "http://x/a" Nil [] New world0
        = Returned (set_url "http://x/a" New) w3 Nil None.
Proof.
  intros P.
  destruct (@X9_nil_result_discards_body P 1 "http://x/a" [] New world0
              (set_url "http://x/a" New)
              (Do_record (sample_Request 1 "GET" "http://x/a" None) world0)
              (served "not json at all" None))
    as (w3 & err & Hreq & Hok & _).
  - vm_compute. reflexivity.
  - reflexivity.
  - exists w3. rewrite Hreq, (Hok eq_refl). reflexivity.
Defined.

Lemma X10_witness :
  let P := sample_platform (serve "plain" None) no_hooks in
  ∃ w3 res err captured,
    @request P 1 "http://x/a" Nil [WithResponse (Some 7%positive)] New world0
    = Returned (set_response (Some 7%positive) (set_url "http://x/a" New)) w3 res err
    ∧ heap w3 !! 7%positive = Some captured
    ∧ resp_StatusCode captured = 200
    ∧ (ReadAll (resp_Body captured)).1 = ("plain", None).
Proof.
  intros P.
  destruct (@X10_response_is_captured P 1 "http://x/a" Nil
              [WithResponse (Some 7%positive)] New world0
              (set_response (Some 7%positive) (set_url "http://x/a" New))
              (Do_record (sample_Request 1 "GET" "http://x/a" None) world0)
              (served "plain" None) 7%positive)
    as (w3 & res & err & captured & Hreq & Hslot & Hcode & _ & Hbody & _).
  - vm_compute. reflexivity.
  - reflexivity.
  - reflexivity.
  - exists w3, res, err, captured. repeat split; assumption.
Defined.

Lemma X11_witness :
  let P := sample_platform (serve "plain" None) no_hooks in
  let result := PointerTo reflect_String true (anyString "old") in
  (@request_read P (set_response (Some 7%positive) New) result
     (served "plain" None) world0).1.2
  = (@request_read P (set_response None New) result
       (served "plain" None) world0).1.2
  ∧ (@request_read P (set_response (Some 7%positive) New) result
       (served "plain" None) world0).2
    = (@request_read P (set_response None New) result
         (served "plain" None) world0).2.
Proof.
  intros P result.
  apply (@X11_capture_does_not_change_decoding P New 7%positive result
           (served "plain" None) world0).
  reflexivity.
Defined.

Lemma X12_witness :
  let P := sample_platform (serve "" (Some (errorString "close failed"))) no_hooks in
  ∃ w3 res err err',
    @request P 1 "http://x/a" Nil [] New world0
    = Returned (set_url "http://x/a" New) w3 res err
    ∧ err = Some err'
    ∧ Unwrap err' = Some (errorString "close failed").
Proof.
  intros P.
  destruct (@X12_close_error_is_reported P 1 "http://x/a" Nil [] New world0
              (set_url "http://x/a" New)
              (Do_record (sample_Request 1 "GET" "http://x/a" None) world0)
              (served "" (Some (errorString "close failed"))))
    as (w3 & res & err & Hreq & Hclose & _).
  - vm_compute. reflexivity.
  - destruct (Hclose (errorString "close failed") eq_refl) as (err' & Herr & Hun).
    exists w3, res, err, err'. split; [exact Hreq|]. split; assumption.
Defined.

Lemma X13_witness :
  let P := sample_platform (serve_broken "par" (errorString "unexpected EOF"))
             no_hooks in
  let result := PointerTo reflect_String true (anyString "old") in
  ∃ w3 err,
    @request P 1 "http://x/a" result [] New world0
    = Returned (set_url "http://x/a" New) w3 result (Some err)
    ∧ Unwrap err = Some (errorString "unexpected EOF").
Proof.
  intros P result.
  apply (@X13_read_failure P 1 "http://x/a" result [] New world0
           (set_url "http://x/a" New)
           (Do_record (sample_Request 1 "GET" "http://x/a" None) world0)
           {| resp_StatusCode := 200; resp_Header := ∅;
              resp_Body := {| rc_data := "par";
                              rc_readErr := Some (errorString "unexpected EOF");
                              rc_closeErr := None |} |}).
  - vm_compute. reflexivity.
  - reflexivity.
  - reflexivity.
Defined.


Lemma X15_witness :
  let P := sample_platform (serve "" None) no_hooks in
  let out := @run_hooks P [GetHook "http://x/a"; PostHook; GetHook bad_url] New
               world0 in
  same_config New out.1.1 ∧ sent out.1.2 = sent world0 ∧ heap out.1.2 = heap world0.
Proof.
  intros P out.
  apply (@X15_facade_hooks_write_url_and_body P
           [GetHook "http://x/a"; PostHook; GetHook bad_url] New world0
           out.1.1 out.1.2 out.2).
  - repeat constructor.
  - unfold out. by destruct (@run_hooks P _ New world0) as [[? ?] ?].
Defined.

Lemma X16_witness :
  let P := sample_platform (serve "plain" None) no_hooks in
  let o := @request P 1 "http://x/a" Nil [] New world0 in
  ∃ r' w' res err, o = Returned r' w' res err ∧ printed w' = printed world0.
Proof.
  intros P o.
  destruct o as [|r' w' res err] eqn:Ho; [discriminate|].
  exists r', w', res, err. split; [reflexivity|].
  apply (@X16_no_logger_no_output P 1 "http://x/a" Nil [] New world0
           (set_url "http://x/a" New) r' w' res err).
  - reflexivity.
  - reflexivity.
  - constructor.
  - exact Ho.
Defined.


Lemma X18_witness :
  let P := sample_platform (serve "" None) no_hooks in
  let c := CallPost 1 "http://x/b" (Some {[ "c" := anyOther 1 ]}) Nil [] in
  let rp := configured c (set_url "http://x/b" New) ∅ in
  ∃ err inner,
    @invoke P c New world0 = Returned rp world0 Nil (Some err)
    ∧ Unwrap err = Some inner
    ∧ Unwrap inner = Some (errorString "json: unsupported type")
    ∧ sent world0 = sent world0.
Proof.
  intros P c rp.
  apply (@X18_marshal_failure P c New world0 (set_url "http://x/b" New) ∅
           rp world0 (errorString "json: unsupported type")).
  - exact I.
  - reflexivity.
  - reflexivity.
  - constructor.
  - reflexivity.
  - vm_compute. reflexivity.
Defined.

Lemma X19_witness :
  let P := sample_platform (serve "" None) no_hooks in
  let rp := configured (CallGet 1 bad_url Nil []) (set_url bad_url New) ∅ in
  ∃ err inner,
    @Get P 1 bad_url Nil [] New world0 = Returned rp world0 Nil (Some err)
    ∧ Unwrap err = Some inner
    ∧ Unwrap inner = Some (errorString "net/url: invalid control character in URL")
    ∧ sent world0 = sent world0.
Proof.
  intros P rp.
  destruct (@X19_unparsable_url P 1 bad_url None Nil [] New world0
              (set_url bad_url New) ∅ rp world0
              (errorString "net/url: invalid control character in URL"))
    as [Hget _].
  - reflexivity.
  - reflexivity.
  - constructor.
  - reflexivity.
  - apply Hget. reflexivity.
Defined.





